(** * powerunit-io/platform: the mqtt connection worker

    A shallow embedding of [package mqtt] (type [Connection] and its
    methods [Start], [Subscribe], [BrokerHandler], [Validate], the
    configuration accessors and [Stop]) together with the properties the
    specification states about them.

    Conventions of the embedding:
    - Go's [int] is the 64-bit two's complement integer: a [Z] kept in
      range by [wrap];
    - a Go run-time panic is the [Panic] outcome of a computation;
    - the configuration ([*config.Config], [map[string]interface{}]) is a
      finite map from keys to dynamically typed values;
    - the collaborators that live outside the package (the paho client,
      the logger, [events.NewEvent], [utils]) are the fields of the
      classes [Transport] and [Platform];
    - every call to a collaborator is recorded, in order, in a trace. *)

From Stdlib Require Import ZArith String List Bool Lia.
From stdpp Require Import base option list gmap strings.

Open Scope Z_scope.
Open Scope string_scope.

(** ** Go primitives *)

Module Go.

(** [int] on a 64-bit platform. *)
Definition int_min : Z := - 2 ^ 63.
Definition int_max : Z := 2 ^ 63 - 1.

(** Signed overflow wraps around (the Go specification defines it). *)
Definition wrap (z : Z) : Z := (z + 2 ^ 63) mod 2 ^ 64 - 2 ^ 63.

(** [uint(x)] for an [int] [x]. *)
Definition uint (z : Z) : Z := z mod 2 ^ 64.

(** [len(s)]: the number of bytes of [s]. *)
Definition len (s : string) : Z := Z.of_nat (String.length s).

(** [strings.Contains(s, substr)]. *)
Fixpoint Contains (s substr : string) : bool :=
  String.prefix substr s ||
  match s with
  | EmptyString => false
  | String _ s' => Contains s' substr
  end.

(** The reasons for which the modelled code panics. *)
Inductive panic : Type :=
| TypeAssertion (key : string)   (* x.(T) on a value that is nil or not a T *)
| NilDereference                 (* a method of a nil *MQTT.Client *)
| CloseOfClosedChannel
| MakeChanSize.                  (* make(chan T, n) with n < 0 *)

(** A computation either yields a value or panics. *)
Inductive Result (A : Type) : Type :=
| Ok (a : A)
| Panic (p : panic).
Arguments Ok {A} a.
Arguments Panic {A} p.

#[global] Instance Result_ret : MRet Result := fun A a => Ok a.
#[global] Instance Result_bind : MBind Result := fun A B f m =>
  match m with
  | Ok a => f a
  | Panic p => Panic p
  end.

(** A value of type [interface{}] that is not nil. *)
#[local] Set Warnings "-register-all".
Inductive Value : Type :=
| VString (s : string)
| VInt (z : Z)
| VBool (b : bool)
| VMap (m : gmap string Value).

#[local] Set Warnings "register-all".

(** [v, ok := x.(string)]: [None] stands for [ok = false]. *)
Definition as_string (x : option Value) : option string :=
  match x with
  | Some (VString s) => Some s
  | _ => None
  end.

(** [x.(string)], the form that panics. [key] only names the value in
    the panic. *)
Definition must_string (key : string) (x : option Value) : Result string :=
  match x with
  | Some (VString s) => Ok s
  | _ => Panic (TypeAssertion key)
  end.

(** [x.(map[string]interface{})], the form that panics. *)
Definition must_map (key : string) (x : option Value)
  : Result (gmap string Value) :=
  match x with
  | Some (VMap m) => Ok m
  | _ => Panic (TypeAssertion key)
  end.

(** Values of type [error], and the operands of a format string. An
    [ExtError] is an error made by a collaborator; [Errorf] is
    [fmt.Errorf(format, args...)]. *)
Inductive error : Type :=
| ExtError (msg : string)
| Errorf (format : string) (args : list arg)
with arg : Type :=
| AString (s : string)
| AInt (z : Z)
| AValue (v : option Value)
| AMap (m : gmap string Value)
| AStrings (l : list string)
| AError (e : error)
| AOpaque.                       (* a value of a collaborator's type *)

End Go.
Import Go.

(** ** Configuration accessors ([*config.Config]) *)

(** [c.Config.Get(key)]: the value, or nil ([None]). *)
Definition Get (cfg : gmap string Value) (key : string) : option Value :=
  cfg !! key.

(** Modelled from the spec: [utils.StringInSlice] is not part of the
    sources at hand; the specification says the network "must be one of
    a fixed allow-list", so it is list membership. *)
Definition StringInSlice (s : string) (l : list string) : bool :=
  existsb (String.eqb s) l.

Definition GetBrokerAddr (cfg : gmap string Value) : Result string :=
  connection ← must_map "connection" (Get cfg "connection");
  network ← must_string "network" (connection !! "network");
  address ← must_string "address" (connection !! "address");
  mret (network ++ "://" ++ address ++ "?timeout=10s").

Definition GetBrokerCredentials (cfg : gmap string Value)
  : Result (string * string) :=
  connection ← must_map "connection" (Get cfg "connection");
  username ← must_string "username" (connection !! "username");
  password ← must_string "password" (connection !! "password");
  mret (username, password).

Definition GetBrokerClientID (cfg : gmap string Value) : Result string :=
  connection ← must_map "connection" (Get cfg "connection");
  must_string "clientId" (connection !! "clientId").

Definition GetBrokerTopicName (cfg : gmap string Value) : Result string :=
  connection ← must_map "connection" (Get cfg "connection");
  must_string "topic" (connection !! "topic").

Definition Name (cfg : gmap string Value) : Result string :=
  must_string "name" (Get cfg "name").

(** ** Collaborators *)

Module MQTT.

(** A paho token once it has completed: [Wait()] blocks until then and
    reports completion, [Error()] is the error of the operation or nil. *)
Record Token : Type := mkToken { Wait : bool; Error : option error }.

(** [token.Wait() && token.Error() != nil], the test the package makes
    after every operation of the client. *)
Definition failed (t : Token) : option error :=
  if Wait t then Error t else None.

(** The options [Start] builds for [MQTT.NewClient]. The default publish
    handler, which is always [c.BrokerHandler], is left out. *)
Record ClientOptions : Type := mkOptions {
  Servers : list string;
  ClientID : string;
  Username : string;
  Password : string;
  AutoReconnect : bool
}.

End MQTT.

(** The paho client and the broker behind it. A client is named by the
    order of its creation ([MQTT.NewClient]); what the network does is
    the state [World], threaded through every call. *)
Class Transport : Type := {
  World : Type;
  client_Connect : nat -> World -> MQTT.Token * World;
  client_IsConnected : nat -> World -> bool * World;
  client_Subscribe : nat -> string -> Z -> World -> MQTT.Token * World;
  client_Unsubscribe : nat -> string -> World -> MQTT.Token * World;
  client_Disconnect : nat -> Z -> World -> World
}.

(** The rest of the platform: the [events] and [utils] packages and the
    constants of the package, none of which is in the sources at hand. *)
Class Platform : Type := {
  Message : Type;
  Event : Type;
  Payload : Message -> string;
  Topic : Message -> string;
  NewEvent : Message -> Event * option error;
  GetConcurrencyCount : string -> Z;
  AvailableConnectionTypes : list string;
  MaxTopicSubscribeAttempts : Z;
  InitialConnectionTimeout : Z;
  GracefulShutdownTimeout : Z
}.

(** ** Channels *)

(** A buffered channel: the buffer, its capacity, and the values of the
    senders parked because the buffer was full. *)
Record chan (A : Type) : Type := mkChan {
  buf : list A;
  cap : nat;
  sendq : list A
}.
Arguments mkChan {A} buf cap sendq.
Arguments buf {A} c.
Arguments cap {A} c.
Arguments sendq {A} c.

Definition chan_full {A} (c : chan A) : bool :=
  negb (Nat.ltb (length (buf c)) (cap c)).

(** [c <- x]: into the buffer when there is room, else the sender parks. *)
Definition chan_send {A} (x : A) (c : chan A) : chan A :=
  if chan_full c
  then mkChan (buf c) (cap c) (sendq c ++ [x])
  else mkChan (buf c ++ [x]) (cap c) (sendq c).

(** [<-c] by a consumer: the head of the buffer, the first parked sender
    moving into the freed slot; [None] when there is nothing to receive. *)
Definition chan_recv {A} (c : chan A) : option (A * chan A) :=
  match buf c, sendq c with
  | x :: b, y :: q => Some (x, mkChan (b ++ [y]) (cap c) q)
  | x :: b, [] => Some (x, mkChan b (cap c) [])
  | [], y :: q => Some (y, mkChan [] (cap c) q)
  | [], [] => None
  end.

(** ** The connection and the monad its methods run in *)

Inductive Level : Type := LInfo | LWarning | LError.

(** One entry of the trace: a line given to the logger, or a call to a
    collaborator with what it answered. *)
Inductive call : Type :=
| CLog (lvl : Level) (format : string) (args : list arg)
| CNewClient (h : nat)
| CConnect (h : nat) (t : MQTT.Token)
| CIsConnected (h : nat) (b : bool)
| CSubscribe (h : nat) (topic : string) (qos : Z) (t : MQTT.Token)
| CUnsubscribe (h : nat) (topic : string) (t : MQTT.Token)
| CDisconnect (h : nat) (quiesce : Z)
| CNewEvent (err : option error)
| CSleep (nanoseconds : Z).

(** [time.Second], in nanoseconds. *)
Definition Second : Z := 1000000000.

Section Connection.
Context `{T : Transport} `{P : Platform}.

(** [type Connection struct]: the configuration, [conn] (nil until the
    first client is made) and [events] (nil until [Start] makes it). The
    embedded logger writes to the trace. *)
Record Connection : Type := mkConnection {
  Config : gmap string Value;
  conn : option nat;
  events : option (chan Event)
}.

(** The connection together with what surrounds it: the network, the
    number of clients [MQTT.NewClient] has made, and the trace. *)
Record State : Type := mkState {
  self : Connection;
  world : World;
  clients : nat;
  trace : list call
}.

Definition set_self (c : Connection) (s : State) : State :=
  mkState c (world s) (clients s) (trace s).
Definition set_world (w : World) (s : State) : State :=
  mkState (self s) w (clients s) (trace s).
Definition record (c : call) (s : State) : State :=
  mkState (self s) (world s) (clients s) (trace s ++ [c]).

(** A method ends by returning ([Done]), by panicking, or stays parked
    on a channel operation ([Parked]) with the state it has reached. *)
Inductive Outcome (A : Type) : Type :=
| Done (a : A) (s : State)
| Panicked (p : panic)
| Parked (s : State).
Arguments Done {A} a s.
Arguments Panicked {A} p.
Arguments Parked {A} s.

Definition M (A : Type) : Type := State -> Outcome A.

#[local] Instance M_ret : MRet M := fun A a s => Done a s.
#[local] Instance M_bind : MBind M := fun A B f m s =>
  match m s with
  | Done a s' => f a s'
  | Panicked p => Panicked p
  | Parked s' => Parked s'
  end.

Definition lift {A} (r : Result A) : M A := fun s =>
  match r with
  | Ok a => Done a s
  | Panic p => Panicked p
  end.

Definition emit (c : call) : M unit := fun s => Done tt (record c s).

Definition config : M (gmap string Value) := fun s => Done (Config (self s)) s.

(** The methods of the embedded logger. *)
Definition Info (format : string) (args : list arg) : M unit :=
  emit (CLog LInfo format args).
Definition Warning (format : string) (args : list arg) : M unit :=
  emit (CLog LWarning format args).
Definition Error (format : string) (args : list arg) : M unit :=
  emit (CLog LError format args).

(** The accessors, called on the connection. *)
Definition c_Name : M string := cfg ← config; lift (Name cfg).
Definition c_GetBrokerAddr : M string := cfg ← config; lift (GetBrokerAddr cfg).
Definition c_GetBrokerTopicName : M string :=
  cfg ← config; lift (GetBrokerTopicName cfg).

(** A method of [c.conn]: a nil client panics, otherwise the transport
    answers and the call is recorded. *)
Definition on_conn {A} (f : nat -> World -> A * World) (entry : nat -> A -> call)
  : M A := fun s =>
  match conn (self s) with
  | None => Panicked NilDereference
  | Some h =>
      let r := f h (world s) in
      Done (fst r) (record (entry h (fst r)) (set_world (snd r) s))
  end.

Definition conn_Connect : M MQTT.Token := on_conn client_Connect CConnect.
Definition conn_IsConnected : M bool := on_conn client_IsConnected CIsConnected.
Definition conn_Subscribe (topic : string) (qos : Z) : M MQTT.Token :=
  on_conn (fun h => client_Subscribe h topic qos)
          (fun h t => CSubscribe h topic qos t).
Definition conn_Unsubscribe (topic : string) : M MQTT.Token :=
  on_conn (fun h => client_Unsubscribe h topic)
          (fun h t => CUnsubscribe h topic t).
Definition conn_Disconnect (quiesce : Z) : M unit :=
  on_conn (fun h w => (tt, client_Disconnect h quiesce w))
          (fun h _ => CDisconnect h quiesce).

Definition Sleep (d : Z) : M unit := emit (CSleep d).

(** [events.NewEvent(msg)]. *)
Definition events_NewEvent (msg : Message) : M (Event * option error) :=
  emit (CNewEvent (snd (NewEvent msg)));; mret (NewEvent msg).

(** [c.events <- event]. A send on a nil channel never completes; a send
    on a full channel parks the handler until a consumer makes room. *)
Definition send_events (event : Event) : M unit := fun s =>
  match events (self s) with
  | None => Parked s
  | Some ch =>
      let s' := set_self (mkConnection (Config (self s)) (conn (self s))
                                       (Some (chan_send event ch))) s in
      if chan_full ch then Parked s' else Done tt s'
  end.

(** ** Subscribe *)

(** What one turn of the loop of [Subscribe] decides. *)
Inductive turn : Type :=
| Continue (err : error)         (* err = token.Error(); continue *)
| Break.                         (* err = nil; break *)

(** The body of the loop, for the index [i]. *)
Definition Subscribe_attempt (topic : string) (i : Z) : M turn :=
  name ← c_Name;
  Info "About to attempt subscribe to mqtt (topic: %s) for (worker: %s) -> (retry_attempt: %d)"
       [AString topic; AString name; AInt i];;
  token ← conn_Subscribe topic 0;
  match MQTT.failed token with
  | Some e =>
      Error "Could not subscribe to (topic: %s) for (worker: %s) due to (err: %s). Retrying ..." [];;
      mret (Continue e)
  | None =>
      name ← c_Name;
      topic' ← c_GetBrokerTopicName;
      Info "Successfully subscribed (worker: %s) on (topic: %s)!"
           [AString name; AString topic'];;
      mret Break
  end.

(** [for i := 0; i <= maxRetryAttempts; i++ { ... }; return err], from
    the index [i] with [err] as it stands. The loop need not end (see
    [wrap]), so it runs on fuel: [None] is "still looping". *)
Fixpoint Subscribe_loop (fuel : nat) (topic : string) (maxRetryAttempts i : Z)
    (err : option error) (s : State) : option (Outcome (option error)) :=
  match fuel with
  | O => None
  | S fuel' =>
      if (i <=? maxRetryAttempts)%Z then
        match Subscribe_attempt topic i s with
        | Done (Continue e) s' =>
            Subscribe_loop fuel' topic maxRetryAttempts (wrap (i + 1)) (Some e) s'
        | Done Break s' => Some (Done None s')
        | Panicked p => Some (Panicked p)
        | Parked s' => Some (Parked s')
        end
      else Some (Done err s)
  end.

Definition Subscribe (fuel : nat) (topic : string) (maxRetryAttempts : Z)
    (s : State) : option (Outcome (option error)) :=
  Subscribe_loop fuel topic maxRetryAttempts 0 None s.

(** ** BrokerHandler *)

Definition BrokerHandler (msg : Message) : M unit :=
  name ← c_Name;
  Info "Received new mqtt (worker: %s) - (message: %s) for (topic: %s). Building event now ..."
       [AString name; AString (Payload msg); AString (Topic msg)];;
  r ← events_NewEvent msg;
  match snd r with
  | Some err =>
      Error "Could not handle received event due to (err: %s)" [AError err]
  | None =>
      Info "Event successfully created (data: %v)" [AOpaque];;
      send_events (fst r)
  end.

(** [DrainEvents]. *)
Definition DrainEvents (c : Connection) : option (chan Event) := events c.

(** ** Validate *)

Definition is_nil {A} (x : option A) : bool :=
  match x with
  | None => true
  | Some _ => false
  end.

(** [_, ok := x.(string)]. *)
Definition ok_string (x : option Value) : bool := negb (is_nil (as_string x)).

(** The checks of [Validate], in the order of the source. *)
Definition Validate_checks (cfg : gmap string Value) : Result (option error) :=
  if is_nil (Get cfg "connection") then
    mret (Some (Errorf
      "Could not validate mqtt worker as connection interface is missing (entry: %s)"
      [AValue (Get cfg "connection")]))
  else
  data ← must_map "connection" (Get cfg "connection");
  if negb (ok_string (data !! "network")) then
    mret (Some (Errorf
      "Could not validate mqtt worker as connection network is not set. (connection_data: %q)"
      [AMap data]))
  else
  network ← must_string "network" (data !! "network");
  if negb (StringInSlice network AvailableConnectionTypes) then
    mret (Some (Errorf
      "Could not validate mqtt worker as connection network is not valid. (network: %s) - (available_networks: %v)"
      [AString network; AStrings AvailableConnectionTypes]))
  else
  if negb (ok_string (data !! "address")) then
    mret (Some (Errorf
      "Could not validate mqtt worker as connection address is not set. (connection_data: %q)"
      [AMap data]))
  else
  address ← must_string "address" (data !! "address");
  if (len address <? 5)%Z || negb (Contains address ":") then
    mret (Some (Errorf
      "Could not validate mqtt worker as connection address is not valid. (address: %s)"
      [AString address]))
  else
  if negb (ok_string (data !! "username")) then
    mret (Some (Errorf
      "Could not validate mqtt worker as connection username is not set. Username can be empty but it MUST be set. (connection_data: %q)"
      [AMap data]))
  else
  if negb (ok_string (data !! "password")) then
    mret (Some (Errorf
      "Could not validate mqtt worker as connection password is not set. Password can be empty but it MUST be set. (connection_data: %q)"
      [AMap data]))
  else
  clientID ← must_string "clientId" (data !! "clientId");
  if negb (ok_string (data !! "clientId")) then
    mret (Some (Errorf
      "Could not validate mqtt worker as connection clientId is not set. (client_id: %s)"
      [AString clientID]))
  else
  if (len clientID <? 2)%Z then
    mret (Some (Errorf
      "Could not validate mqtt worker as connection clientId is not long enough. (client_id: %s)"
      [AString clientID]))
  else
  if negb (ok_string (data !! "topic")) then
    mret (Some (Errorf
      "Could not validate mqtt worker as connection topic is not set. (connection_data: %q)"
      [AMap data]))
  else
  mret None.

Definition Validate : M (option error) :=
  name ← c_Name;
  Info "Validating mqtt configuration for (worker: %q)" [AString name];;
  cfg ← config;
  lift (Validate_checks cfg).

(** ** Stop *)

Definition Stop : M (option error) :=
  name ← c_Name;
  Warning "Stopping mqtt (worker: %s) ..." [AString name];;
  connected ← conn_IsConnected;
  if negb connected then
    name ← c_Name;
    Warning "Connection for mqtt (worker: %s) is already closed." [AString name];;
    mret None
  else
    name ← c_Name;
    topic ← c_GetBrokerTopicName;
    Warning "Unsubscribing from mqtt (worker: %s) (topic: %s)..."
            [AString name; AString topic];;
    topic ← c_GetBrokerTopicName;
    token ← conn_Unsubscribe topic;
    match MQTT.failed token with
    | Some e =>
        topic ← c_GetBrokerTopicName;
        name ← c_Name;
        Error "Could not unsubscribe from (topic: %s) for (worker: %s) due to (err: %s)"
              [AString topic; AString name; AError e]
    | None => mret tt
    end;;
    name ← c_Name;
    Warning "Stopping mqtt (worker: %s) connection (graceful_timeout: %ds)..."
            [AString name; AInt GracefulShutdownTimeout];;
    conn_Disconnect (uint GracefulShutdownTimeout);;
    Sleep (wrap (GracefulShutdownTimeout * Second));;
    mret None.

(** ** Start *)

(** [Start] runs three kinds of goroutine: the caller, the loop started
    at line 47, and one monitor for every turn of the loop that reaches
    line 68. Each is followed from one channel operation to the next. *)

(** Where the caller of [Start] stands. *)
Inductive caller_pc : Type :=
| CSelect                        (* line 98, in the select *)
| CSendTimeout (e : error)       (* line 110, parked on errors <- e *)
| CReturned (r : option error).

(** Where the loop stands. *)
Inductive loop_pc : Type :=
| LTop                           (* line 48 *)
| LSendError (e : error)         (* line 55, parked on errors <- e *)
| LSubscribe (topic : string) (i : Z) (err : option error)
                                 (* line 63, in c.Subscribe at line 129 *)
| LSubscribed (r : option error) (* line 63, c.Subscribe has returned r *)
| LWaitReload (g : nat)          (* line 88, parked on <-reload *)
| LSleep.                        (* line 90 *)

(** Where a monitor stands. *)
Inductive monitor_pc : Type :=
| MSelect                        (* line 72 *)
| MSendReload                    (* line 75, parked on reload <- true *)
| MReturned.

(** The program while [Start] runs. [connected] tells whether the
    channel of that name has been closed. The channel [errors] has no
    buffer and so no state of its own: a send on it is a goroutine
    parked at [CSendTimeout] or [LSendError]. Monitor [g] holds the
    [reload] channel of the turn that started it. A panic in any
    goroutine ends the program ([crashed]). *)
Record Machine : Type := mkMachine {
  st : State;
  opts : MQTT.ClientOptions;
  connected : bool;
  caller : caller_pc;
  loop : loop_pc;
  monitors : list monitor_pc;
  crashed : option panic
}.

Definition set_st (s : State) (m : Machine) : Machine :=
  mkMachine s (opts m) (connected m) (caller m) (loop m) (monitors m) (crashed m).
Definition set_connected (b : bool) (m : Machine) : Machine :=
  mkMachine (st m) (opts m) b (caller m) (loop m) (monitors m) (crashed m).
Definition set_caller (pc : caller_pc) (m : Machine) : Machine :=
  mkMachine (st m) (opts m) (connected m) pc (loop m) (monitors m) (crashed m).
Definition set_loop (pc : loop_pc) (m : Machine) : Machine :=
  mkMachine (st m) (opts m) (connected m) (caller m) pc (monitors m) (crashed m).
Definition set_monitors (l : list monitor_pc) (m : Machine) : Machine :=
  mkMachine (st m) (opts m) (connected m) (caller m) (loop m) l (crashed m).
Definition crash (p : panic) (m : Machine) : Machine :=
  mkMachine (st m) (opts m) (connected m) (caller m) (loop m) (monitors m) (Some p).

(** Run a piece of sequential code of one goroutine, then [k]. None of
    the pieces run this way has a channel operation in it. *)
Definition exec {A} (c : M A) (m : Machine) (k : A -> Machine -> Machine)
  : Machine :=
  match c (st m) with
  | Done a s => k a (set_st s m)
  | Panicked p => crash p m
  | Parked s => set_st s m
  end.

(** [c.conn = MQTT.NewClient(opts)]. *)
Definition new_client : M unit := fun s =>
  let h := clients s in
  Done tt (mkState (mkConnection (Config (self s)) (Some h) (events (self s)))
                   (world s) (S h) (trace s ++ [CNewClient h])).

(** Lines 32 to 47: the options, the queue, the channels, and the loop
    started. *)
Definition Start_setup (s : State) : Result Machine :=
  let cfg := Config (self s) in
  addr ← GetBrokerAddr cfg;
  clientID ← GetBrokerClientID cfg;
  credentials ← GetBrokerCredentials cfg;
  let concurrency := GetConcurrencyCount "PU_GO_MAX_CONCURRENCY" in
  if (concurrency <? 0)%Z then Panic MakeChanSize else
  mret (mkMachine
          (set_self (mkConnection cfg (conn (self s))
                       (Some (mkChan [] (Z.to_nat concurrency) []))) s)
          (MQTT.mkOptions [addr] clientID (fst credentials) (snd credentials) true)
          false CSelect LTop [] None).

(** The loop, from where it stands to its next channel operation; one
    turn of the loop inside [c.Subscribe] at a time. *)
Definition loop_step (m : Machine) : Machine :=
  match loop m with
  | LTop =>
      exec (name ← c_Name;
            addr ← c_GetBrokerAddr;
            Info "Starting MQTT (connection: %s) on (addr: %s)..."
                 [AString name; AString addr];;
            new_client;;
            token ← conn_Connect;
            match MQTT.failed token with
            | Some e =>
                mret (LSendError (Errorf
                  "Failed to establish connection with mqtt server (error: %s)"
                  [AError e]))
            | None =>
                live ← conn_IsConnected;
                if negb live then mret LTop
                else
                  topic ← c_GetBrokerTopicName;
                  mret (LSubscribe topic 0 None)
            end)
           m set_loop
  | LSubscribe topic i err =>
      if (i <=? MaxTopicSubscribeAttempts)%Z then
        exec (Subscribe_attempt topic i) m
             (fun t =>
                match t with
                | Continue e => set_loop (LSubscribe topic (wrap (i + 1)) (Some e))
                | Break => set_loop (LSubscribed None)
                end)
      else set_loop (LSubscribed err) m
  | LSubscribed _ =>
      (* the value c.Subscribe returned is dropped; close(connected);
         go func() { ... }() *)
      if connected m then crash CloseOfClosedChannel m
      else set_loop (LWaitReload (length (monitors m)))
             (set_monitors (monitors m ++ [MSelect]) (set_connected true m))
  | LSleep => set_loop LTop m
  | LSendError _ => m
  | LWaitReload _ => m
  end.

(** The select of the caller takes [case <-connected]. *)
Definition caller_connected (m : Machine) : Machine :=
  match caller m with
  | CSelect =>
      if connected m then
        exec (name ← c_Name;
              addr ← c_GetBrokerAddr;
              Info "Successfully established mqtt connection for (worker: %s) on (addr: %s)"
                   [AString name; AString addr])
             m (fun _ => set_caller (CReturned None))
      else m
  | _ => m
  end.

(** The select of the caller takes [case err := <-errors], which needs
    the loop parked on its send. *)
Definition caller_error (m : Machine) : Machine :=
  match caller m, loop m with
  | CSelect, LSendError e => set_caller (CReturned (Some e)) (set_loop LTop m)
  | _, _ => m
  end.

(** The select of the caller takes [case <-time.After(...)]: the error
    is made and sent on [errors]. *)
Definition caller_timeout (m : Machine) : Machine :=
  match caller m with
  | CSelect =>
      exec (name ← c_Name;
            addr ← c_GetBrokerAddr;
            mret (Errorf
              "Could not establish mqtt connection for (worker: %s) on (addr: %s) due to initial connection (timeout: %ds)"
              [AString name; AString addr; AInt InitialConnectionTimeout]))
           m (fun e => set_caller (CSendTimeout e))
  | _ => m
  end.

(** Monitor [g] takes [case <-cct]. *)
Definition monitor_tick (g : nat) (m : Machine) : Machine :=
  match monitors m !! g with
  | Some MSelect =>
      exec conn_IsConnected m
           (fun live m' =>
              if live then m'
              else set_monitors (<[g := MSendReload]> (monitors m')) m')
  | _ => m
  end.

(** Monitor [g] takes [case <-done]. *)
Definition monitor_done (g : nat) (m : Machine) : Machine :=
  match monitors m !! g with
  | Some MSelect =>
      exec (name ← c_Name;
            Warning "Received stop signal for mqtt (worker: %s). Will not attempt to restart worker ..."
                    [AString name])
           m (fun _ m' => set_monitors (<[g := MReturned]> (monitors m')) m')
  | _ => m
  end.

(** [reload <- true] of monitor [g] meets [<-reload] of the loop. *)
Definition reload (g : nat) (m : Machine) : Machine :=
  match monitors m !! g, loop m with
  | Some MSendReload, LWaitReload g' =>
      if Nat.eqb g g' then
        exec (name ← c_Name;
              Warning "Mqtt (worker: %s) seems not to be connected. Restarting loop in 2 seconds ..."
                      [AString name];;
              Sleep (wrap (2 * Second)))
             (set_monitors (<[g := MReturned]> (monitors m)) m)
             (fun _ => set_loop LSleep)
      else m
  | _, _ => m
  end.

(** What the scheduler, the clock and the owner of [done] can make
    happen next. *)
Inductive action : Type :=
| ALoop
| ACallerConnected
| ACallerError
| ACallerTimeout
| AMonitorTick (g : nat)
| AMonitorDone (g : nat)
| AReload (g : nat).

(** One step; an action that cannot happen where the program stands
    leaves it as it is, and nothing happens after a panic. *)
Definition step (a : action) (m : Machine) : Machine :=
  match crashed m with
  | Some _ => m
  | None =>
      match a with
      | ALoop => loop_step m
      | ACallerConnected => caller_connected m
      | ACallerError => caller_error m
      | ACallerTimeout => caller_timeout m
      | AMonitorTick g => monitor_tick g m
      | AMonitorDone g => monitor_done g m
      | AReload g => reload g m
      end
  end.

Definition run (schedule : list action) (m : Machine) : Machine :=
  fold_left (fun m a => step a m) schedule m.

(** What [Start] has returned, if it has. *)
Definition Start_result (m : Machine) : option (option error) :=
  match caller m with
  | CReturned r => Some r
  | _ => None
  end.

(** [Start] under a schedule. *)
Definition Start (schedule : list action) (s : State) : Result Machine :=
  m ← Start_setup s;
  mret (run schedule m).

End Connection.

Arguments Done {T P A} a s.
Arguments Panicked {T P A} p.
Arguments Parked {T P A} s.

(** ** A scripted transport and a sample platform *)

Module Sample.

Definition ok : MQTT.Token := MQTT.mkToken true None.
Definition refused : MQTT.Token :=
  MQTT.mkToken true (Some (ExtError "connection refused")).

(** What the transport will answer, call after call; the last answer of
    a list is repeated for ever and an empty list answers [d]. *)
Definition next {A} (d : A) (l : list A) : A * list A :=
  match l with
  | [] => (d, [])
  | [x] => (x, [x])
  | x :: l' => (x, l')
  end.

Record Script : Type := mkScript {
  connects : list MQTT.Token;
  liveness : list bool;
  subscribes : list MQTT.Token;
  unsubscribes : list MQTT.Token
}.

Definition Scripted : Transport := {|
  World := Script;
  client_Connect := fun _ w =>
    let r := next ok (connects w) in
    (fst r, mkScript (snd r) (liveness w) (subscribes w) (unsubscribes w));
  client_IsConnected := fun _ w =>
    let r := next true (liveness w) in
    (fst r, mkScript (connects w) (snd r) (subscribes w) (unsubscribes w));
  client_Subscribe := fun _ _ _ w =>
    let r := next ok (subscribes w) in
    (fst r, mkScript (connects w) (liveness w) (snd r) (unsubscribes w));
  client_Unsubscribe := fun _ _ w =>
    let r := next ok (unsubscribes w) in
    (fst r, mkScript (connects w) (liveness w) (subscribes w) (snd r));
  client_Disconnect := fun _ _ w => w
|}.

(** Messages are their payload, events the decoded payload; an empty
    payload does not decode. *)
Definition Plain : Platform := {|
  Message := string;
  Event := string;
  Payload := fun msg => msg;
  Topic := fun _ => "sensors/1";
  NewEvent := fun msg =>
    if String.eqb msg "" then ("", Some (ExtError "empty payload"))
    else (msg, None);
  GetConcurrencyCount := fun _ => 2;
  AvailableConnectionTypes := ["tcp"; "ssl"; "ws"];
  MaxTopicSubscribeAttempts := 3;
  InitialConnectionTimeout := 10;
  GracefulShutdownTimeout := 5
|}.

(** The configuration the specification gives as valid. *)
Definition connection : gmap string Value :=
  <["network" := VString "tcp"]>
  (<["address" := VString "10.0.0.1:1883"]>
  (<["username" := VString ""]>
  (<["password" := VString ""]>
  (<["clientId" := VString "cl1"]>
  (<["topic" := VString "sensors/1"]> ∅))))).

Definition valid : gmap string Value :=
  <["name" := VString "worker"]> (<["connection" := VMap connection]> ∅).

(** The same without a name, and without a client identifier. *)
Definition nameless : gmap string Value :=
  <["connection" := VMap connection]> ∅.

Definition no_clientId : gmap string Value :=
  <["name" := VString "worker"]>
  (<["connection" := VMap (delete "clientId" connection)]> ∅).

Definition numeric_clientId : gmap string Value :=
  <["name" := VString "worker"]>
  (<["connection" := VMap (<["clientId" := VInt 42]> connection)]> ∅).

(** A connection before [Start], and one holding client 0. *)
Definition fresh (cfg : gmap string Value) (w : Script)
  : State (T := Scripted) (P := Plain) :=
  @mkState Scripted Plain (@mkConnection Plain cfg None None) w 0 [].

Definition running (cfg : gmap string Value) (w : Script) (q : chan string)
  : State (T := Scripted) (P := Plain) :=
  @mkState Scripted Plain (@mkConnection Plain cfg (Some 0%nat) (Some q)) w 1 [].

(** The program when [Start] has built its options and started the loop,
    for the valid configuration. *)
Definition started (w : Script) : Machine (T := Scripted) (P := Plain) :=
  match Start_setup (fresh valid w) with
  | Ok m => m
  | Panic _ =>
      mkMachine (fresh valid w) (MQTT.mkOptions [] "" "" "" false)
                false CSelect LTop [] None
  end.

(** A broker that accepts the connection and refuses every subscription. *)
Definition refusing : Script := mkScript [] [] [refused] [].

(** A client that connects without error and never reports connected. *)
Definition never_live : Script := mkScript [] [false] [] [].

(** A connection that is lost once, after the first subscription. *)
Definition lost_once : Script := mkScript [ok] [true; false; true] [ok] [ok].

(** The first handshake, [Start] returning, the monitor seeing the loss,
    and the loop coming round to line 66 with a second client. *)
Definition reconnect : list action :=
  [ALoop; ALoop; ALoop; ACallerConnected; AMonitorTick 0; AReload 0;
   ALoop; ALoop; ALoop].

(** An empty drain queue, and the address of the valid configuration. *)
Definition q0 : chan string := mkChan [] 2 [].
Definition addr0 : string := "tcp://10.0.0.1:1883?timeout=10s".

(** A configuration whose connection entry is a string, not a block. *)
Definition flat_connection : gmap string Value :=
  <["name" := VString "worker"]>
  (<["connection" := VString "tcp://10.0.0.1:1883"]> ∅).

(** A broker that refuses the first connect and accepts the next. *)
Definition refused_first : Script := mkScript [refused; ok] [] [] [].

(** A connection that is lost after the handshake, the broker then
    refusing every connect. *)
Definition fails_later : Script := mkScript [ok; refused] [true; false] [ok] [].

(** The first handshake and [Start] returning. *)
Definition handshake : list action := [ALoop; ALoop; ALoop; ACallerConnected].

(** A transport that never fails and never loses the connection. *)
Definition Steady : Transport := {|
  World := unit;
  client_Connect := fun _ w => (ok, w);
  client_IsConnected := fun _ w => (true, w);
  client_Subscribe := fun _ _ _ w => (ok, w);
  client_Unsubscribe := fun _ _ w => (ok, w);
  client_Disconnect := fun _ _ w => w
|}.

(** The program started on the steady transport. *)
Definition steady_started : Machine (T := Steady) (P := Plain) :=
  match Start_setup (@mkState Steady Plain (@mkConnection Plain valid None None)
                       tt 0 []) with
  | Ok m => m
  | Panic _ =>
      mkMachine (@mkState Steady Plain (@mkConnection Plain valid None None)
                   tt 0 [])
                (MQTT.mkOptions [] "" "" "" false) false CSelect LTop [] None
  end.

End Sample.

(** ** Vocabulary of the properties *)

(** The tokens the transport gave to the subscriptions of a trace. *)
Definition subscribe_tokens (l : list call) : list MQTT.Token :=
  omap (fun c => match c with
                 | CSubscribe _ _ _ t => Some t
                 | _ => None
                 end) l.

(** A trace without the lines given to the logger. *)
Definition without_logs (l : list call) : list call :=
  List.filter (fun c => match c with
                        | CLog _ _ _ => false
                        | _ => true
                        end) l.

(** Every token of the list is one the package takes for a failure. *)
Definition all_failed (l : list MQTT.Token) : Prop :=
  Forall (fun t => MQTT.failed t <> None) l.

(** The configuration has a string under [key]. *)
Definition has_string (m : gmap string Value) (key : string) : Prop :=
  as_string (m !! key) <> None.

(** The configuration has a connection block with a string under each
    of [keys]. *)
Definition has_connection (cfg : gmap string Value) (keys : list string) : Prop :=
  exists c, Get cfg "connection" = Some (VMap c) /\ Forall (has_string c) keys.

(** What an accessor does, given the keys it reads: a value when they
    are there, a panic when they are not. *)
Definition total_only_with {A} (r : Result A) (precondition : Prop) : Prop :=
  match r with
  | Ok _ => precondition
  | Panic (TypeAssertion _) => ~ precondition
  | Panic _ => False
  end.

(** The rules of [Validate] on a connection block: the six fields are
    strings, the network is one of the supported ones, the address has
    at least 5 bytes and a [":"], the client identifier at least 2. *)
Definition valid_connection `{P : Platform} (data : gmap string Value) : Prop :=
  exists network address username password clientId topic : string,
    data !! "network" = Some (VString network)
    /\ In network AvailableConnectionTypes
    /\ data !! "address" = Some (VString address)
    /\ 5 <= len address
    /\ (exists pre post : string, address = pre ++ ":" ++ post)
    /\ data !! "username" = Some (VString username)
    /\ data !! "password" = Some (VString password)
    /\ data !! "clientId" = Some (VString clientId)
    /\ 2 <= len clientId
    /\ data !! "topic" = Some (VString topic).

(** Everything sent on a channel and not yet received, in order. *)
Definition chan_pending {A} (c : chan A) : list A := (buf c ++ sendq c)%list.

(** A channel as the run time keeps it: the buffer within its capacity,
    and senders parked only while the buffer is full. *)
Definition chan_wf {A} (c : chan A) : Prop :=
  (length (buf c) <= cap c)%nat /\ (chan_full c = false -> sendq c = []).

(** The state a method has reached when it returns or parks. *)
Definition reached `{T : Transport} `{P : Platform} {A} (o : Outcome A)
  : option State :=
  match o with
  | Done _ s => Some s
  | Parked s => Some s
  | Panicked _ => None
  end.

(** The moves of the goroutines of [Start], seen from the outside: where
    the caller, the loop and the monitors stand and whether [connected]
    is closed. [step_moves] below shows every step to be one of them. *)
Inductive loop_moves : loop_pc -> loop_pc -> Prop :=
| lm_retry : loop_moves LTop LTop
| lm_fail (e : error) :
    loop_moves LTop
      (LSendError (Errorf
         "Failed to establish connection with mqtt server (error: %s)"
         [AError e]))
| lm_subscribe (topic : string) : loop_moves LTop (LSubscribe topic 0 None)
| lm_again (topic : string) (i : Z) (err : option error) (e : error) :
    loop_moves (LSubscribe topic i err) (LSubscribe topic (wrap (i + 1)) (Some e))
| lm_break (topic : string) (i : Z) (err : option error) :
    loop_moves (LSubscribe topic i err) (LSubscribed None)
| lm_exhausted (topic : string) (i : Z) (err : option error) :
    loop_moves (LSubscribe topic i err) (LSubscribed err)
| lm_wake : loop_moves LSleep LTop.

Section Moves.
Context `{T : Transport} `{P : Platform}.

Inductive moves (a : action) (m m' : Machine) : Prop :=
| mv_stay :
    caller m' = caller m -> loop m' = loop m ->
    connected m' = connected m -> monitors m' = monitors m -> moves a m m'
| mv_loop :
    loop_moves (loop m) (loop m') ->
    caller m' = caller m -> connected m' = connected m ->
    monitors m' = monitors m -> a = ALoop -> moves a m m'
| mv_close (r : option error) :
    loop m = LSubscribed r -> connected m = false ->
    loop m' = LWaitReload (length (monitors m)) -> connected m' = true ->
    monitors m' = (monitors m ++ [MSelect])%list ->
    caller m' = caller m -> moves a m m'
| mv_connected :
    caller m = CSelect -> connected m = true ->
    caller m' = CReturned None -> loop m' = loop m ->
    connected m' = connected m -> monitors m' = monitors m -> moves a m m'
| mv_error (e : error) :
    caller m = CSelect -> loop m = LSendError e ->
    caller m' = CReturned (Some e) -> loop m' = LTop ->
    connected m' = connected m -> monitors m' = monitors m -> moves a m m'
| mv_timeout (e : error) :
    caller m = CSelect -> caller m' = CSendTimeout e -> loop m' = loop m ->
    connected m' = connected m -> monitors m' = monitors m -> moves a m m'
| mv_lost (g h : nat) (w : World) :
    monitors m !! g = Some MSelect ->
    (client_IsConnected h w).1 = false ->
    monitors m' = <[g := MSendReload]> (monitors m) ->
    caller m' = caller m -> loop m' = loop m ->
    connected m' = connected m -> moves a m m'
| mv_done (g : nat) :
    monitors m !! g = Some MSelect ->
    monitors m' = <[g := MReturned]> (monitors m) ->
    caller m' = caller m -> loop m' = loop m ->
    connected m' = connected m -> moves a m m'
| mv_reload (g : nat) :
    monitors m !! g = Some MSendReload -> loop m = LWaitReload g ->
    monitors m' = <[g := MReturned]> (monitors m) -> loop m' = LSleep ->
    caller m' = caller m -> connected m' = connected m -> moves a m m'
| mv_reload_panic (g : nat) :
    monitors m !! g = Some MSendReload -> loop m = LWaitReload g ->
    monitors m' = <[g := MReturned]> (monitors m) -> loop m' = loop m ->
    caller m' = caller m -> connected m' = connected m -> moves a m m'.

(** A property of the state that no log line, no answer of the
    transport and no new client undoes. *)
Definition stable (I : State -> Prop) : Prop :=
  (forall c s, I s -> I (record c s))
  /\ (forall w s, I s -> I (set_world w s))
  /\ (forall s s', new_client s = Done tt s' -> I s -> I s').

(** A piece of code keeps [I]: from a state with [I] it ends, if it does
    not panic, in a state with [I]. *)
Definition preserves (I : State -> Prop) {A} (c : M A) : Prop :=
  forall s, I s ->
    match c s with
    | Done _ s' => I s'
    | Parked s' => I s'
    | Panicked _ => True
    end.

(** The trace is [old] followed by more. *)
Definition extends (old : list call) (s : State) : Prop :=
  exists new, trace s = (old ++ new)%list.

(** Since the trace was [old], a client has connected without error and
    has reported connected. *)
Definition handshook_since (old : list call) (s : State) : Prop :=
  exists new h t,
    trace s = (old ++ new)%list
    /\ In (CConnect h t) new /\ MQTT.failed t = None
    /\ In (CIsConnected h true) new.

(** The client the connection holds, if any, is the one made last. *)
Definition holds_last_client (s : State) : Prop :=
  forall h, conn (self s) = Some h -> clients s = S h.

(** The error the loop makes of a failed connect. *)
Definition connect_failure (e : error) : Prop :=
  exists e' : error,
    e = Errorf "Failed to establish connection with mqtt server (error: %s)"
          [AError e'].

End Moves.

(** * Properties *)

(** Unfold the monad so that a method computes on a given state. *)
Ltac unfold_monad :=
  unfold c_Name, c_GetBrokerAddr, c_GetBrokerTopicName, config, lift,
    Info, Warning, Error, Sleep, emit, events_NewEvent,
    conn_IsConnected, conn_Subscribe, conn_Unsubscribe, conn_Disconnect,
    conn_Connect, on_conn, mbind, M_bind, mret, M_ret in *.

Lemma has_string_as (m : gmap string Value) (key : string) :
  has_string m key <-> exists v, m !! key = Some (VString v).
Proof.
  unfold has_string, as_string.
  destruct (m !! key) as [[v|z|b|c]|]; split; intros H;
    try (destruct H as [v' H]; discriminate H); try congruence; eauto.
Qed.

Section Accessors.
Context `{T : Transport} `{P : Platform}.

Lemma Name_panics_iff (cfg : gmap string Value) :
  as_string (Get cfg "name") = None <-> Name cfg = Panic (TypeAssertion "name").
Proof.
  unfold Name, must_string, as_string.
  destruct (Get cfg "name") as [[s|z|b|m]|]; split; intros H;
    try reflexivity; discriminate H.
Qed.

(** C8. For a configuration whose connection block has the network
    scheme [scheme] and the address [address], [GetBrokerAddr] returns
    exactly [scheme ++ "://" ++ address ++ "?timeout=10s"], and calling
    it on a connection leaves the state of the connection as it was. *)
Theorem GetBrokerAddr_uri (s : State) (connection : gmap string Value)
    (scheme address : string) :
  Get (Config (self s)) "connection" = Some (VMap connection) ->
  connection !! "network" = Some (VString scheme) ->
  connection !! "address" = Some (VString address) ->
  GetBrokerAddr (Config (self s))
    = Ok (scheme ++ "://" ++ address ++ "?timeout=10s")
  /\ c_GetBrokerAddr s = Done (scheme ++ "://" ++ address ++ "?timeout=10s") s.
Proof.
  intros Hc Hn Ha.
  assert (E : GetBrokerAddr (Config (self s))
              = Ok (scheme ++ "://" ++ address ++ "?timeout=10s")).
  { unfold GetBrokerAddr. rewrite Hc. cbn. rewrite Hn. cbn. rewrite Ha.
    reflexivity. }
  split; [exact E|].
  unfold_monad. now rewrite E.
Qed.

End Accessors.

(** ** Subscribe *)

Lemma wrap_in_range (z : Z) : int_min <= z <= int_max -> wrap z = z.
Proof.
  unfold wrap, int_min, int_max. intros H.
  rewrite Z.mod_small; lia.
Qed.

Lemma wrap_range (z : Z) : int_min <= wrap z <= int_max.
Proof.
  unfold wrap, int_min, int_max.
  pose proof (Z.mod_pos_bound (z + 2 ^ 63) (2 ^ 64)). lia.
Qed.

Lemma subscribe_tokens_app (l1 l2 : list call) :
  subscribe_tokens (l1 ++ l2) = (subscribe_tokens l1 ++ subscribe_tokens l2)%list.
Proof. apply omap_app. Qed.

Section SubscribeProperties.
Context `{T : Transport} `{P : Platform}.

(** C9. For every topic and every negative [maxRetryAttempts],
    [Subscribe] returns nil and leaves everything as it was: the body of
    the loop is never run, so nothing is logged and the transport is not
    called. *)
Theorem Subscribe_negative_budget (fuel : nat) (topic : string)
    (maxRetryAttempts : Z) (s : State) :
  maxRetryAttempts < 0 ->
  Subscribe (S fuel) topic maxRetryAttempts s = Some (Done None s).
Proof.
  intros H. unfold Subscribe. cbn.
  destruct (Z.leb_spec 0 maxRetryAttempts); [lia | reflexivity].
Qed.

(** One turn of the loop on a connection that has a client, a name and
    a topic. *)
Lemma Subscribe_attempt_eq (topic : string) (i : Z) (s : State) (h : nat)
    (name tn : string) :
  conn (self s) = Some h ->
  Name (Config (self s)) = Ok name ->
  GetBrokerTopicName (Config (self s)) = Ok tn ->
  Subscribe_attempt topic i s =
    let r := client_Subscribe h topic 0 (world s) in
    let s1 :=
      record (CSubscribe h topic 0 (fst r))
        (set_world (snd r)
           (record (CLog LInfo
              "About to attempt subscribe to mqtt (topic: %s) for (worker: %s) -> (retry_attempt: %d)"
              [AString topic; AString name; AInt i]) s)) in
    match MQTT.failed (fst r) with
    | Some e =>
        Done (Continue e)
          (record (CLog LError
             "Could not subscribe to (topic: %s) for (worker: %s) due to (err: %s). Retrying ..."
             []) s1)
    | None =>
        Done Break
          (record (CLog LInfo "Successfully subscribed (worker: %s) on (topic: %s)!"
             [AString name; AString tn]) s1)
    end.
Proof.
  intros Hc Hn Ht. unfold Subscribe_attempt. unfold_monad.
  rewrite Hn. cbn. rewrite Hc. cbn.
  destruct (MQTT.failed (client_Subscribe h topic 0 (world s)).1); cbn.
  - reflexivity.
  - rewrite Hn. cbn. rewrite Ht. reflexivity.
Qed.

(** The loop from the index [i], with [k] turns left. *)
Lemma Subscribe_loop_spec (topic : string) (maxRetryAttempts : Z) (h : nat)
    (name tn : string) (k : nat) :
  forall (fuel : nat) (i : Z) (err : option error) (s : State),
  maxRetryAttempts < int_max ->
  0 <= i <= maxRetryAttempts + 1 ->
  Z.to_nat (maxRetryAttempts + 1 - i) = k ->
  (k < fuel)%nat ->
  conn (self s) = Some h ->
  Name (Config (self s)) = Ok name ->
  GetBrokerTopicName (Config (self s)) = Ok tn ->
  exists r s' new,
    Subscribe_loop fuel topic maxRetryAttempts i err s = Some (Done r s')
    /\ self s' = self s
    /\ trace s' = (trace s ++ new)%list
    /\ (length (subscribe_tokens new) <= k)%nat
    /\ match r with
       | None =>
           (k = 0%nat /\ new = [] /\ err = None)
           \/ exists fails t,
                subscribe_tokens new = (fails ++ [t])%list
                /\ all_failed fails /\ MQTT.failed t = None
       | Some e =>
           length (subscribe_tokens new) = k
           /\ all_failed (subscribe_tokens new)
           /\ match last (subscribe_tokens new) with
              | Some t => MQTT.failed t = Some e
              | None => err = Some e
              end
       end.
Proof.
  induction k as [|k IH]; intros fuel i err s Hmax Hi Hk Hfuel Hc Hn Ht.
  - destruct fuel as [|fuel]; [lia|]. cbn.
    destruct (Z.leb_spec i maxRetryAttempts); [lia|].
    exists err, s, []. rewrite app_nil_r.
    split; [reflexivity|]. split; [reflexivity|]. split; [reflexivity|].
    split; [cbn; lia|].
    destruct err as [e|]; cbn.
    + split; [reflexivity|]. split; [constructor | reflexivity].
    + left. auto.
  - destruct fuel as [|fuel]; [lia|]. cbn.
    destruct (Z.leb_spec i maxRetryAttempts); [|lia].
    rewrite (Subscribe_attempt_eq topic i s h name tn Hc Hn Ht). cbn.
    set (log0 := CLog LInfo _ _).
    set (r0 := client_Subscribe h topic 0 (world s)).
    destruct (MQTT.failed r0.1) as [e|] eqn:Hf.
    + set (s1 := record _ _).
      destruct (IH fuel (wrap (i + 1)) (Some e) s1)
        as (r & s' & new & Hrun & Hself & Htr & Hlen & Hr).
      * exact Hmax.
      * rewrite wrap_in_range; unfold int_min, int_max in *; lia.
      * rewrite wrap_in_range; unfold int_min, int_max in *; lia.
      * lia.
      * exact Hc.
      * exact Hn.
      * exact Ht.
      * exists r, s'.
        eexists ([log0; CSubscribe h topic 0 r0.1; _] ++ new)%list.
        split; [exact Hrun|]. split; [rewrite Hself; reflexivity|].
        split; [rewrite Htr; cbn; rewrite <- !app_assoc; reflexivity|].
        rewrite subscribe_tokens_app.
        change (subscribe_tokens [log0; CSubscribe h topic 0 r0.1; _])
          with [r0.1].
        cbn [app length].
        split; [lia|].
        destruct r as [e'|].
        -- destruct Hr as (Hl & Hall & Hlast). repeat split.
           ++ cbn. lia.
           ++ constructor; [congruence | exact Hall].
           ++ rewrite last_cons.
              destruct (last (subscribe_tokens new)); [exact Hlast | congruence].
        -- right. destruct Hr as [(_ & _ & Habs) | (fails & t & Heq & Hall & Hok)];
             [discriminate Habs|].
           exists (r0.1 :: fails), t. rewrite Heq. repeat split.
           ++ constructor; [congruence | exact Hall].
           ++ exact Hok.
    + eexists None, _, [log0; CSubscribe h topic 0 r0.1; _].
      split; [reflexivity|]. split; [reflexivity|].
      split; [cbn; rewrite <- !app_assoc; reflexivity|].
      split; [cbn; lia|].
      right. exists [], r0.1. repeat split; [constructor | exact Hf].
Qed.

End SubscribeProperties.

Section SubscribeRetry.
Context `{T : Transport} `{P : Platform}.

(** C3, amended. For every topic and every [maxRetryAttempts] from 0 up
    to, but not including, the largest [int], [Subscribe] returns; it
    calls the transport's subscribe at most [maxRetryAttempts + 1] times;
    when it returns nil the last call is the first one that succeeded;
    when it returns an error every one of the [maxRetryAttempts + 1]
    calls failed and the error is that of the last call. *)
Theorem Subscribe_bounded_retry (fuel : nat) (topic : string)
    (maxRetryAttempts : Z) (s : State) (h : nat) (name tn : string) :
  0 <= maxRetryAttempts < int_max ->
  (Z.to_nat maxRetryAttempts + 1 < fuel)%nat ->
  conn (self s) = Some h ->
  Name (Config (self s)) = Ok name ->
  GetBrokerTopicName (Config (self s)) = Ok tn ->
  exists r s' new,
    Subscribe fuel topic maxRetryAttempts s = Some (Done r s')
    /\ trace s' = (trace s ++ new)%list
    /\ Z.of_nat (length (subscribe_tokens new)) <= maxRetryAttempts + 1
    /\ match r with
       | None =>
           exists fails t,
             subscribe_tokens new = (fails ++ [t])%list
             /\ all_failed fails /\ MQTT.failed t = None
       | Some e =>
           Z.of_nat (length (subscribe_tokens new)) = maxRetryAttempts + 1
           /\ all_failed (subscribe_tokens new)
           /\ exists t, last (subscribe_tokens new) = Some t
                        /\ MQTT.failed t = Some e
       end.
Proof.
  intros Hmax Hfuel Hc Hn Ht.
  destruct (Subscribe_loop_spec topic maxRetryAttempts h name tn
              (Z.to_nat (maxRetryAttempts + 1)) fuel 0 None s)
    as (r & s' & new & Hrun & _ & Htr & Hlen & Hr);
    try assumption; try lia.
  exists r, s', new. split; [exact Hrun|]. split; [exact Htr|].
  split; [lia|].
  destruct r as [e|].
  - destruct Hr as (Hl & Hall & Hlast). split; [lia|]. split; [exact Hall|].
    destruct (last (subscribe_tokens new)) as [t|]; [|discriminate Hlast].
    exists t. auto.
  - destruct Hr as [(Hk & _) | Hr]; [lia | exact Hr].
Qed.

End SubscribeRetry.

(** With the largest [int] as budget the test [i <= maxRetryAttempts]
    never fails: after the turn for the largest [int] the index wraps
    round to the smallest. On a transport that refuses every
    subscription the loop goes on for ever. *)
Lemma Subscribe_loop_int_max (topic : string) (fuel : nat) :
  forall (i : Z) (err : option error) (s : State (T := Sample.Scripted) (P := Sample.Plain)),
  i <= int_max ->
  conn (self s) = Some 0%nat ->
  Config (self s) = Sample.valid ->
  Sample.subscribes (world s) = [Sample.refused] ->
  Subscribe_loop fuel topic int_max i err s = None.
Proof.
  induction fuel as [|fuel IH]; intros i err s Hi Hconn Hcfg Hw; [reflexivity|].
  cbn [Subscribe_loop].
  destruct (Z.leb_spec i int_max); [|lia].
  rewrite (Subscribe_attempt_eq topic i s 0 "worker" "sensors/1");
    try (rewrite Hcfg; reflexivity); [|exact Hconn].
  cbn. rewrite Hw. cbn.
  apply IH.
  - apply wrap_range.
  - exact Hconn.
  - exact Hcfg.
  - reflexivity.
Qed.

(** ** Stop and BrokerHandler *)

Section Teardown.
Context `{T : Transport} `{P : Platform}.

(** Two states with the same four parts are the same. *)
Lemma State_eq (a b : State) :
  self a = self b -> world a = world b -> clients a = clients b ->
  trace a = trace b -> a = b.
Proof. destruct a, b. cbn. intros -> -> -> ->. reflexivity. Qed.

(** C6. On a connection with a client and a name: when the transport
    reports not connected, [Stop] logs and returns nil without an
    unsubscribe or a disconnect; when it reports connected, [Stop]
    unsubscribes from the topic, logs the error of the unsubscribe if
    there is one and carries on, disconnects, sleeps for the graceful
    shutdown window and returns nil, in that order. *)
Theorem Stop_graceful (s : State) (h : nat) (name : string) :
  conn (self s) = Some h ->
  Name (Config (self s)) = Ok name ->
  let live := client_IsConnected h (world s) in
  let stopping := CLog LWarning "Stopping mqtt (worker: %s) ..." [AString name] in
  (live.1 = false ->
   Stop s =
     Done None
       (mkState (self s) live.2 (clients s)
          (trace s ++
             [stopping; CIsConnected h false;
              CLog LWarning "Connection for mqtt (worker: %s) is already closed."
                [AString name]])))
  /\ (live.1 = true ->
      forall tn : string,
      GetBrokerTopicName (Config (self s)) = Ok tn ->
      let unsub := client_Unsubscribe h tn live.2 in
      Stop s =
        Done None
          (mkState (self s)
             (client_Disconnect h (uint GracefulShutdownTimeout) unsub.2)
             (clients s)
             (trace s ++
                [stopping; CIsConnected h true;
                 CLog LWarning "Unsubscribing from mqtt (worker: %s) (topic: %s)..."
                   [AString name; AString tn];
                 CUnsubscribe h tn unsub.1] ++
                match MQTT.failed unsub.1 with
                | Some e =>
                    [CLog LError
                       "Could not unsubscribe from (topic: %s) for (worker: %s) due to (err: %s)"
                       [AString tn; AString name; AError e]]
                | None => []
                end ++
                [CLog LWarning
                   "Stopping mqtt (worker: %s) connection (graceful_timeout: %ds)..."
                   [AString name; AInt GracefulShutdownTimeout];
                 CDisconnect h (uint GracefulShutdownTimeout);
                 CSleep (wrap (GracefulShutdownTimeout * Second))]))).
Proof.
  intros Hc Hn live stopping. subst stopping. unfold Stop. unfold_monad.
  rewrite Hn. cbn. rewrite Hc. cbn. fold live.
  split.
  - intros Hl. rewrite Hl. cbn. rewrite Hn. cbn.
    f_equal. apply State_eq; cbn; try reflexivity.
    rewrite <- !app_assoc. reflexivity.
  - intros Hl tn Ht. rewrite Hl. cbn. rewrite Hn. cbn. rewrite Ht. cbn.
    rewrite Ht. cbn. rewrite Hc. cbn.
    set (unsub := client_Unsubscribe h tn live.2).
    destruct (MQTT.failed unsub.1) as [e|]; cbn.
    + rewrite Ht. cbn. rewrite Hn. cbn. rewrite Hn. cbn. rewrite Hc. cbn.
      f_equal. apply State_eq; cbn; try reflexivity.
      rewrite <- !app_assoc. reflexivity.
    + rewrite Hn. cbn. rewrite Hc. cbn.
      f_equal. apply State_eq; cbn; try reflexivity.
      rewrite <- !app_assoc. reflexivity.
Qed.

(** C7. On a connection with a name and a drain queue, for every
    message: when the message does not decode, [BrokerHandler] logs the
    error and returns, the queue being as it was and the decoder called
    once; when it decodes, [BrokerHandler] sends the decoded event, and
    only it, to the queue, once: the event is the new last element of
    the buffer when there is room, and otherwise the handler is parked
    with it until a consumer makes room. *)
Theorem BrokerHandler_enqueues_or_drops (msg : Message) (s : State)
    (name : string) (q : chan Event) :
  Name (Config (self s)) = Ok name ->
  events (self s) = Some q ->
  let received :=
    CLog LInfo
      "Received new mqtt (worker: %s) - (message: %s) for (topic: %s). Building event now ..."
      [AString name; AString (Payload msg); AString (Topic msg)] in
  match (NewEvent msg).2 with
  | Some err =>
      BrokerHandler msg s =
        Done tt
          (mkState (self s) (world s) (clients s)
             (trace s ++
                [received; CNewEvent (Some err);
                 CLog LError "Could not handle received event due to (err: %s)"
                   [AError err]]))
  | None =>
      let event := (NewEvent msg).1 in
      let s' :=
        mkState
          (mkConnection (Config (self s)) (conn (self s))
             (Some (chan_send event q)))
          (world s) (clients s)
          (trace s ++
             [received; CNewEvent None;
              CLog LInfo "Event successfully created (data: %v)" [AOpaque]]) in
      BrokerHandler msg s = (if chan_full q then Parked s' else Done tt s')
      /\ (chan_full q = false ->
          buf (chan_send event q) = (buf q ++ [event])%list
          /\ sendq (chan_send event q) = sendq q)
      /\ (chan_full q = true ->
          buf (chan_send event q) = buf q
          /\ sendq (chan_send event q) = (sendq q ++ [event])%list)
  end.
Proof.
  intros Hn Hq received. subst received. unfold BrokerHandler. unfold_monad.
  rewrite Hn. cbn.
  destruct (NewEvent msg) as [event [err|]]; cbn.
  - unfold record. cbn. rewrite <- !app_assoc. reflexivity.
  - unfold send_events, record, set_self. cbn. rewrite Hq.
    split; [|split].
    + rewrite <- !app_assoc. cbn. reflexivity.
    + intros Hf. unfold chan_send. rewrite Hf. auto.
    + intros Hf. unfold chan_send. rewrite Hf. auto.
Qed.

(** A handler parked on a full queue gets its event into the buffer
    when a consumer next receives, if no other sender is parked ahead. *)
Lemma parked_event_enters_on_receive {A} (x : A) (q : chan A) :
  chan_full q = true -> sendq q = [] -> (0 < cap q)%nat ->
  exists y b, buf q = y :: b
    /\ chan_recv (chan_send x q) = Some (y, mkChan (b ++ [x]) (cap q) []).
Proof.
  intros Hf Hs Hc. unfold chan_send. rewrite Hf.
  unfold chan_full in Hf. apply negb_true_iff, Nat.ltb_ge in Hf.
  destruct (buf q) as [|y b] eqn:Hb; [cbn in Hf; lia|].
  exists y, b. split; [reflexivity|].
  unfold chan_recv. cbn [buf sendq cap]. rewrite Hs. reflexivity.
Qed.

End Teardown.

(** ** Validate *)

(** The configuration the specification gives as valid is accepted. *)
Example Validate_accepts_valid :
  Validate_checks (P := Sample.Plain) Sample.valid = Ok None.
Proof. vm_compute. reflexivity. Qed.

(** Past the assertions on the connection block and on [clientId], the
    checks return: nil, or the error of the first field that fails. *)
Lemma Validate_checks_total `{P : Platform} (cfg data : gmap string Value) :
  Get cfg "connection" = Some (VMap data) ->
  has_string data "clientId" ->
  exists r, Validate_checks cfg = Ok r.
Proof.
  intros Hc Hid. unfold Validate_checks. rewrite Hc. cbn.
  apply has_string_as in Hid. destruct Hid as [id Hid].
  unfold ok_string.
  destruct (as_string (data !! "network")) as [n|] eqn:En; cbn; [|eauto].
  assert (Hn : data !! "network" = Some (VString n)).
  { destruct (data !! "network") as [[| | |]|]; cbn in En; congruence. }
  rewrite Hn. cbn.
  destruct (StringInSlice n AvailableConnectionTypes); cbn; [|eauto].
  destruct (as_string (data !! "address")) as [a|] eqn:Ea; cbn; [|eauto].
  assert (Ha : data !! "address" = Some (VString a)).
  { destruct (data !! "address") as [[| | |]|]; cbn in Ea; congruence. }
  rewrite Ha. cbn.
  destruct ((len a <? 5)%Z || negb (Contains a ":")); [eauto|].
  destruct (as_string (data !! "username")); cbn; [|eauto].
  destruct (as_string (data !! "password")); cbn; [|eauto].
  rewrite Hid. cbn.
  destruct (len id <? 2)%Z; [eauto|].
  destruct (as_string (data !! "topic")); cbn; eauto.
Qed.

(** C5, at the inputs where the code departs from it. With every field
    before [clientId] valid, a configuration without [clientId], or with
    a [clientId] that is not a string, makes [Validate] panic on the
    type assertion of line 227, before the check that would have
    returned the error about [clientId]. *)
Theorem Validate_panics_on_clientId :
  Validate (Sample.running Sample.no_clientId (Sample.mkScript [] [] [] [])
              (mkChan [] 2 []))
    = Panicked (TypeAssertion "clientId")
  /\ Validate (Sample.running Sample.numeric_clientId
                 (Sample.mkScript [] [] [] []) (mkChan [] 2 []))
     = Panicked (TypeAssertion "clientId").
Proof. split; vm_compute; reflexivity. Qed.

(** ** Start *)

Section Frame.
Context `{T : Transport} `{P : Platform}.

(** [set_st] with the state the machine already has. *)
Lemma set_st_same (m : Machine) : set_st (st m) m = m.
Proof. destruct m. reflexivity. Qed.

(** A part of the machine that neither the state, nor a panic, nor the
    continuation touches is not touched by [exec]. *)
Lemma exec_frame {A X} (f : Machine -> X) (c : M A) (m : Machine)
    (k : A -> Machine -> Machine) :
  (forall s m', f (set_st s m') = f m') ->
  (forall p m', f (crash p m') = f m') ->
  (forall a m', f (k a m') = f m') ->
  f (exec c m k) = f m.
Proof.
  intros Hs Hp Hk. unfold exec.
  destruct (c (st m)) as [a s | p | s].
  - rewrite Hk. apply Hs.
  - apply Hp.
  - apply Hs.
Qed.

End Frame.

Ltac frame :=
  apply exec_frame; intros; try reflexivity;
  repeat match goal with
         | |- context [match ?x with _ => _ end] => destruct x; try reflexivity
         end.

Section Supervisor.
Context `{T : Transport} `{P : Platform}.

Lemma loop_step_caller (m : Machine) : caller (loop_step m) = caller m.
Proof.
  unfold loop_step. destruct (loop m); try reflexivity.
  - frame.
  - destruct (_ <=? _)%Z; [frame | reflexivity].
  - destruct (connected m); reflexivity.
Qed.

Lemma monitor_tick_caller (g : nat) (m : Machine) :
  caller (monitor_tick g m) = caller m.
Proof.
  unfold monitor_tick. destruct (monitors m !! g) as [[]|]; try reflexivity.
  frame.
Qed.

Lemma monitor_done_caller (g : nat) (m : Machine) :
  caller (monitor_done g m) = caller m.
Proof.
  unfold monitor_done. destruct (monitors m !! g) as [[]|]; try reflexivity.
  frame.
Qed.

Lemma reload_caller (g : nat) (m : Machine) : caller (reload g m) = caller m.
Proof.
  unfold reload.
  destruct (monitors m !! g) as [[]|]; try reflexivity.
  destruct (loop m); try reflexivity.
  destruct (Nat.eqb _ _); [|reflexivity].
  etransitivity; [frame | reflexivity].
Qed.

(** Only a caller standing in the select moves. *)
Lemma step_caller (a : action) (m : Machine) :
  caller m <> CSelect -> caller (step a m) = caller m.
Proof.
  intros Hc. unfold step. destruct (crashed m); [reflexivity|].
  destruct a.
  - apply loop_step_caller.
  - unfold caller_connected. destruct (caller m) eqn:E; congruence.
  - unfold caller_error. destruct (caller m) eqn:E; congruence.
  - unfold caller_timeout. destruct (caller m) eqn:E; congruence.
  - apply monitor_tick_caller.
  - apply monitor_done_caller.
  - apply reload_caller.
Qed.

Lemma run_caller (schedule : list action) :
  forall m : Machine, caller m <> CSelect -> caller (run schedule m) = caller m.
Proof.
  induction schedule as [|a l IH]; intros m Hc; [reflexivity|].
  cbn. change (fold_left _ l (step a m)) with (run l (step a m)).
  rewrite IH; rewrite step_caller; auto.
Qed.

(** C2, on the code as it is. Once the select of [Start] takes the
    timeout case, the caller is parked on the send of the timeout error
    to the channel [errors], from which nothing ever receives: under
    every schedule it stays there, and [Start] returns nothing, neither
    the timeout error nor nil. *)
Theorem Start_timeout_never_returns (m : Machine) (name addr : string) :
  crashed m = None ->
  caller m = CSelect ->
  Name (Config (self (st m))) = Ok name ->
  GetBrokerAddr (Config (self (st m))) = Ok addr ->
  forall schedule : list action,
    caller (run schedule (step ACallerTimeout m))
      = CSendTimeout (Errorf
          "Could not establish mqtt connection for (worker: %s) on (addr: %s) due to initial connection (timeout: %ds)"
          [AString name; AString addr; AInt InitialConnectionTimeout])
    /\ Start_result (run schedule (step ACallerTimeout m)) = None.
Proof.
  intros Hcr Hc Hn Ha schedule.
  assert (E : caller (step ACallerTimeout m)
              = CSendTimeout (Errorf
                  "Could not establish mqtt connection for (worker: %s) on (addr: %s) due to initial connection (timeout: %ds)"
                  [AString name; AString addr; AInt InitialConnectionTimeout])).
  { unfold step. rewrite Hcr. unfold caller_timeout. rewrite Hc.
    unfold exec. unfold_monad. rewrite Hn. cbn. rewrite Ha. reflexivity. }
  assert (R : caller (run schedule (step ACallerTimeout m))
              = caller (step ACallerTimeout m)).
  { apply run_caller. rewrite E. discriminate. }
  unfold Start_result. rewrite R, E. auto.
Qed.

(** The channel [connected], once closed, stays closed. *)
Lemma loop_step_connected (m : Machine) :
  connected m = true -> connected (loop_step m) = true.
Proof.
  intros Hc. unfold loop_step. destruct (loop m); try exact Hc.
  - etransitivity; [frame | exact Hc].
  - destruct (_ <=? _)%Z; [|exact Hc].
    etransitivity; [frame | exact Hc].
  - rewrite Hc. exact Hc.
Qed.

Lemma step_connected (a : action) (m : Machine) :
  connected m = true -> connected (step a m) = true.
Proof.
  intros Hc. unfold step. destruct (crashed m); [exact Hc|].
  destruct a.
  - apply loop_step_connected, Hc.
  - unfold caller_connected. destruct (caller m); try exact Hc.
    destruct (connected m) eqn:E; [|discriminate Hc].
    etransitivity; [frame | exact E].
  - unfold caller_error. destruct (caller m); try exact Hc.
    destruct (loop m); exact Hc.
  - unfold caller_timeout. destruct (caller m); try exact Hc.
    etransitivity; [frame | exact Hc].
  - unfold monitor_tick. destruct (monitors m !! g) as [[]|]; try exact Hc.
    etransitivity; [frame | exact Hc].
  - unfold monitor_done. destruct (monitors m !! g) as [[]|]; try exact Hc.
    etransitivity; [frame | exact Hc].
  - unfold reload. destruct (monitors m !! g) as [[]|]; try exact Hc.
    destruct (loop m); try exact Hc.
    destruct (Nat.eqb _ _); [|exact Hc].
    etransitivity; [frame | exact Hc].
Qed.

(** [Start] returns nil only through the case [<-connected]. *)
Lemma step_returned_nil (a : action) (m : Machine) :
  caller (step a m) = CReturned None ->
  caller m = CReturned None \/ connected m = true.
Proof.
  destruct (caller m) eqn:Hc.
  - intros H. right. unfold step in H. destruct (crashed m); [congruence|].
    destruct a.
    + rewrite loop_step_caller in H. congruence.
    + unfold caller_connected in H. rewrite Hc in H.
      destruct (connected m); [reflexivity | congruence].
    + unfold caller_error in H. rewrite Hc in H.
      destruct (loop m); cbn in H; congruence.
    + unfold caller_timeout, exec in H. rewrite Hc in H.
      match type of H with
      | context [match ?c with Done _ _ => _ | _ => _ end] => destruct c
      end; cbn in H; congruence.
    + rewrite monitor_tick_caller in H. congruence.
    + rewrite monitor_done_caller in H. congruence.
    + rewrite reload_caller in H. congruence.
  - rewrite step_caller by congruence. rewrite Hc. discriminate.
  - rewrite step_caller by congruence. rewrite Hc. auto.
Qed.

Lemma run_returned_nil (schedule : list action) :
  forall m : Machine,
  (caller m = CReturned None -> connected m = true) ->
  caller (run schedule m) = CReturned None ->
  connected (run schedule m) = true.
Proof.
  induction schedule as [|a l IH]; intros m Hinv; [exact Hinv|].
  cbn. change (fold_left _ l (step a m)) with (run l (step a m)).
  apply IH. intros H.
  apply step_connected.
  destruct (step_returned_nil a m H); auto.
Qed.

(** C4, on the code as it is. After [Start] has returned nil, whenever
    the loop comes back to line 66, having made a new client and
    subscribed again, it closes the channel [connected] a second time:
    the program panics. This holds for every transport, every schedule
    and every result of the subscription. *)
Theorem reconnect_closes_connected_twice (s : State) (m0 : Machine)
    (schedule : list action) (r : option error) :
  Start_setup s = Ok m0 ->
  Start_result (run schedule m0) = Some None ->
  crashed (run schedule m0) = None ->
  loop (run schedule m0) = LSubscribed r ->
  crashed (step ALoop (run schedule m0)) = Some CloseOfClosedChannel.
Proof.
  intros Hs Hres Hcr Hl.
  assert (Hc : connected (run schedule m0) = true).
  { apply run_returned_nil.
    - unfold Start_setup in Hs.
      destruct (GetBrokerAddr _); [|discriminate Hs].
      destruct (GetBrokerClientID _); [|discriminate Hs].
      destruct (GetBrokerCredentials _); [|discriminate Hs].
      cbn in Hs. destruct (_ <? 0)%Z; [discriminate Hs|].
      injection Hs as <-. cbn. discriminate.
    - unfold Start_result in Hres.
      destruct (caller (run schedule m0)); congruence. }
  unfold step. rewrite Hcr. unfold loop_step. rewrite Hl, Hc. reflexivity.
Qed.

(** [c.Subscribe] does not touch the connection itself. *)
Lemma Subscribe_attempt_self (topic : string) (i : Z) (s s1 : State) (t : turn) :
  Subscribe_attempt topic i s = Done t s1 -> self s1 = self s.
Proof.
  unfold Subscribe_attempt. unfold_monad.
  destruct (Name (Config (self s))) as [name|] eqn:Hn; cbn; [|discriminate].
  destruct (conn (self s)); cbn; [|discriminate].
  destruct (MQTT.failed _); cbn.
  - intros H. injection H as _ <-. reflexivity.
  - rewrite Hn. cbn. destruct (GetBrokerTopicName _); cbn; [|discriminate].
    intros H. injection H as _ <-. reflexivity.
Qed.

Lemma Subscribe_loop_self (fuel : nat) (topic : string) (maxRetryAttempts : Z) :
  forall (i : Z) (err : option error) (s s' : State) (r : option error),
  Subscribe_loop fuel topic maxRetryAttempts i err s = Some (Done r s') ->
  self s' = self s.
Proof.
  induction fuel as [|fuel IH]; intros i err s s' r H; [discriminate H|].
  cbn in H. destruct (_ <=? _)%Z.
  - destruct (Subscribe_attempt topic i s) as [[e|] s1 | p | s1] eqn:Ha;
      try discriminate H.
    + apply IH in H. rewrite H. eapply Subscribe_attempt_self, Ha.
    + injection H as _ <-. eapply Subscribe_attempt_self, Ha.
  - injection H as _ <-. reflexivity.
Qed.

Lemma run_app (l1 l2 : list action) (m : Machine) :
  run (l1 ++ l2) m = run l2 (run l1 m).
Proof. apply fold_left_app. Qed.

(** The loop inside [Start] runs [c.Subscribe]: when [Subscribe] returns
    [r] from the state the machine is in, the machine gets, turn by
    turn, to the point where [c.Subscribe] has returned [r]. *)
Lemma loop_runs_Subscribe (fuel : nat) (topic : string) :
  forall (m : Machine) (i : Z) (err r : option error) (s' : State),
  crashed m = None ->
  loop m = LSubscribe topic i err ->
  Subscribe_loop fuel topic MaxTopicSubscribeAttempts i err (st m)
    = Some (Done r s') ->
  exists n : nat,
    run (repeat ALoop n) m = set_loop (LSubscribed r) (set_st s' m).
Proof.
  induction fuel as [|fuel IH]; intros m i err r s' Hcr Hl H; [discriminate H|].
  cbn in H.
  destruct (i <=? MaxTopicSubscribeAttempts)%Z eqn:Hle.
  - destruct (Subscribe_attempt topic i (st m)) as [[e|] s1 | p | s1] eqn:Ha;
      try discriminate H.
    + destruct (IH (set_loop (LSubscribe topic (wrap (i + 1)) (Some e))
                      (set_st s1 m)) _ _ _ _ Hcr eq_refl H) as [n Hn].
      exists (S n).
      assert (E : step ALoop m
                  = set_loop (LSubscribe topic (wrap (i + 1)) (Some e))
                             (set_st s1 m)).
      { unfold step. rewrite Hcr. unfold loop_step. rewrite Hl, Hle.
        unfold exec. rewrite Ha. reflexivity. }
      change (run (repeat ALoop (S n)) m)
        with (run (repeat ALoop n) (step ALoop m)).
      rewrite E. exact Hn.
    + injection H as <- <-. exists 1%nat. cbn.
      unfold step. rewrite Hcr. unfold loop_step. rewrite Hl, Hle.
      unfold exec. rewrite Ha. reflexivity.
  - injection H as <- <-. exists 1%nat. cbn.
    unfold step. rewrite Hcr. unfold loop_step. rewrite Hl, Hle.
    rewrite set_st_same. reflexivity.
Qed.

(** C1, on the code as it is. When the first connect has succeeded and
    the first [Subscribe] returns an error (every attempt of its budget
    failed), the loop drops that error and closes [connected] all the
    same, and [Start] returns nil. *)
Theorem Start_returns_nil_after_failed_subscribe (m : Machine) (fuel : nat)
    (topic name addr : string) (e : error) (s' : State) :
  crashed m = None ->
  caller m = CSelect ->
  connected m = false ->
  loop m = LSubscribe topic 0 None ->
  Subscribe fuel topic MaxTopicSubscribeAttempts (st m) = Some (Done (Some e) s') ->
  Name (Config (self (st m))) = Ok name ->
  GetBrokerAddr (Config (self (st m))) = Ok addr ->
  exists n : nat,
    loop (run (repeat ALoop n) m) = LSubscribed (Some e)
    /\ Start_result (run (repeat ALoop n ++ [ALoop; ACallerConnected]) m)
       = Some None.
Proof.
  intros Hcr Hc Hco Hl Hsub Hn Ha.
  destruct (loop_runs_Subscribe fuel topic m 0 None (Some e) s' Hcr Hl Hsub)
    as [n Hrun].
  exists n. rewrite run_app, Hrun. split; [reflexivity|].
  apply Subscribe_loop_self in Hsub.
  set (m1 := set_loop (LSubscribed (Some e)) (set_st s' m)).
  set (m2 := set_loop (LWaitReload (length (monitors m)))
               (set_monitors (monitors m ++ [MSelect]) (set_connected true m1))).
  assert (E1 : step ALoop m1 = m2).
  { unfold step. change (crashed m1) with (crashed m). rewrite Hcr.
    unfold loop_step. change (loop m1) with (LSubscribed (Some e)).
    change (connected m1) with (connected m). rewrite Hco. reflexivity. }
  assert (E2 : caller (step ACallerConnected m2) = CReturned None).
  { unfold step. change (crashed m2) with (crashed m). rewrite Hcr.
    unfold caller_connected. change (caller m2) with (caller m). rewrite Hc.
    change (connected m2) with true. cbv iota.
    unfold exec. change (st m2) with s'. unfold_monad.
    rewrite Hsub, Hn. cbn. rewrite Hsub, Ha. reflexivity. }
  change (run [ALoop; ACallerConnected] m1)
    with (step ACallerConnected (step ALoop m1)).
  rewrite E1. unfold Start_result. rewrite E2. reflexivity.
Qed.

End Supervisor.

(** ** The unchecked type assertions *)

Lemma must_string_total (m : gmap string Value) (key : string) :
  total_only_with (must_string key (m !! key)) (has_string m key).
Proof.
  unfold total_only_with, must_string, has_string, as_string.
  destruct (m !! key) as [[v|z|b|c]|]; congruence.
Qed.

Lemma connection_total {A} (cfg : gmap string Value) (keys : list string)
    (f : gmap string Value -> Result A) :
  (forall c, total_only_with (f c) (Forall (has_string c) keys)) ->
  total_only_with (c ← must_map "connection" (Get cfg "connection"); f c)
                  (has_connection cfg keys).
Proof.
  intros Hf. unfold has_connection.
  destruct (Get cfg "connection") as [[v|z|b|c]|] eqn:Hg; cbn;
    try (intros (c' & Hc' & _); discriminate Hc').
  specialize (Hf c). unfold total_only_with in *.
  destruct (f c) as [a|[]]; try exact Hf.
  - exists c. auto.
  - intros (c' & Hc' & Hall). injection Hc' as <-. auto.
Qed.

Lemma GetBrokerAddr_total (cfg : gmap string Value) :
  total_only_with (GetBrokerAddr cfg) (has_connection cfg ["network"; "address"]).
Proof.
  apply connection_total. intros c.
  pose proof (must_string_total c "network") as Hn.
  pose proof (must_string_total c "address") as Ha.
  unfold total_only_with in *.
  destruct (must_string "network" _) as [n|[]]; cbn; try exact Hn;
    [|intros Hall; inversion Hall; auto].
  destruct (must_string "address" _) as [a|[]]; cbn; try exact Ha.
  - repeat constructor; assumption.
  - intros Hall. inversion Hall as [|? ? _ Hall']. inversion Hall'. auto.
Qed.

Lemma GetBrokerCredentials_total (cfg : gmap string Value) :
  total_only_with (GetBrokerCredentials cfg)
                  (has_connection cfg ["username"; "password"]).
Proof.
  apply connection_total. intros c.
  pose proof (must_string_total c "username") as Hn.
  pose proof (must_string_total c "password") as Ha.
  unfold total_only_with in *.
  destruct (must_string "username" _) as [n|[]]; cbn; try exact Hn;
    [|intros Hall; inversion Hall; auto].
  destruct (must_string "password" _) as [a|[]]; cbn; try exact Ha.
  - repeat constructor; assumption.
  - intros Hall. inversion Hall as [|? ? _ Hall']. inversion Hall'. auto.
Qed.

Lemma single_key_total (cfg : gmap string Value) (key : string) :
  total_only_with
    (c ← must_map "connection" (Get cfg "connection"); must_string key (c !! key))
    (has_connection cfg [key]).
Proof.
  apply connection_total. intros c.
  pose proof (must_string_total c key) as Hk.
  unfold total_only_with in *.
  destruct (must_string key _) as [n|[]]; try exact Hk.
  - repeat constructor; assumption.
  - intros Hall. inversion Hall. auto.
Qed.

Section Unchecked.
Context `{T : Transport} `{P : Platform}.

(** Where the program stands when [Start] has started the loop. *)
Lemma Start_setup_initial (s : State) (m0 : Machine) :
  Start_setup s = Ok m0 ->
  crashed m0 = None /\ caller m0 = CSelect /\ loop m0 = LTop
  /\ connected m0 = false /\ monitors m0 = []
  /\ Config (self (st m0)) = Config (self s).
Proof.
  unfold Start_setup. intros Hs.
  destruct (GetBrokerAddr _); [|discriminate Hs].
  destruct (GetBrokerClientID _); [|discriminate Hs].
  destruct (GetBrokerCredentials _); [|discriminate Hs].
  cbn in Hs. destruct (_ <? 0)%Z; [discriminate Hs|].
  injection Hs as <-. cbn. auto 10.
Qed.

Lemma run_crashed (schedule : list action) (m : Machine) (p : panic) :
  crashed m = Some p -> run schedule m = m.
Proof.
  intros Hc. induction schedule as [|a l IH]; [reflexivity|].
  cbn. unfold step at 2. rewrite Hc. exact IH.
Qed.

(** Without a name, the first thing either goroutine of [Start] does is
    to panic. *)
Lemma nameless_step (m : Machine) (p : panic) (a : action) :
  crashed m = None -> caller m = CSelect -> loop m = LTop ->
  connected m = false -> monitors m = [] ->
  Name (Config (self (st m))) = Panic p ->
  (step a m = m \/ step a m = crash p m)
  /\ step ALoop m = crash p m
  /\ step ACallerTimeout m = crash p m.
Proof.
  intros Hcr Hc Hl Hco Hm Hn.
  assert (EL : step ALoop m = crash p m).
  { unfold step. rewrite Hcr. unfold loop_step. rewrite Hl.
    unfold exec. unfold_monad. rewrite Hn. reflexivity. }
  assert (ET : step ACallerTimeout m = crash p m).
  { unfold step. rewrite Hcr. unfold caller_timeout. rewrite Hc.
    unfold exec. unfold_monad. rewrite Hn. reflexivity. }
  split; [|split; assumption].
  destruct a; auto; left; unfold step; rewrite Hcr.
  - unfold caller_connected. rewrite Hc, Hco. reflexivity.
  - unfold caller_error. rewrite Hc, Hl. reflexivity.
  - unfold monitor_tick. rewrite Hm. reflexivity.
  - unfold monitor_done. rewrite Hm. reflexivity.
  - unfold reload. rewrite Hm. reflexivity.
Qed.

Lemma nameless_run (m : Machine) (p : panic) (schedule : list action) :
  crashed m = None -> caller m = CSelect -> loop m = LTop ->
  connected m = false -> monitors m = [] ->
  Name (Config (self (st m))) = Panic p ->
  run schedule m = m \/ run schedule m = crash p m.
Proof.
  intros Hcr Hc Hl Hco Hm Hn.
  induction schedule as [|a l IH]; [left; reflexivity|].
  cbn. change (fold_left _ l (step a m)) with (run l (step a m)).
  destruct (nameless_step m p a Hcr Hc Hl Hco Hm Hn) as ([E|E] & _); rewrite E.
  - exact IH.
  - right. apply (run_crashed l (crash p m) p). reflexivity.
Qed.

(** C10, amended. Each accessor returns a value exactly when the
    configuration has the keys it reads, with strings under them, and
    panics on its type assertion otherwise. On a connection whose
    configuration has no string under [name]: [Validate], [Stop] and
    [BrokerHandler] panic; [Subscribe] panics when its budget is not
    negative; [Start] panics in its set-up or, past it, the program
    panics with the first step of the loop, or with the time-out if that
    comes first, and [Start] never returns. *)
Theorem unchecked_assertions_panic (s : State) :
  let cfg := Config (self s) in
  total_only_with (GetBrokerAddr cfg) (has_connection cfg ["network"; "address"])
  /\ total_only_with (GetBrokerCredentials cfg)
       (has_connection cfg ["username"; "password"])
  /\ total_only_with (GetBrokerClientID cfg) (has_connection cfg ["clientId"])
  /\ total_only_with (GetBrokerTopicName cfg) (has_connection cfg ["topic"])
  /\ total_only_with (Name cfg) (has_string cfg "name")
  /\ (~ has_string cfg "name" ->
      Validate s = Panicked (TypeAssertion "name")
      /\ Stop s = Panicked (TypeAssertion "name")
      /\ (forall msg, BrokerHandler msg s = Panicked (TypeAssertion "name"))
      /\ (forall fuel topic maxRetryAttempts,
            0 <= maxRetryAttempts ->
            Subscribe (S fuel) topic maxRetryAttempts s
              = Some (Panicked (TypeAssertion "name")))
      /\ match Start_setup s with
         | Panic _ => True
         | Ok m0 =>
             crashed (step ALoop m0) = Some (TypeAssertion "name")
             /\ crashed (step ACallerTimeout m0) = Some (TypeAssertion "name")
             /\ forall schedule, Start_result (run schedule m0) = None
         end).
Proof.
  intros cfg.
  split; [apply GetBrokerAddr_total|].
  split; [apply GetBrokerCredentials_total|].
  split; [apply single_key_total|].
  split; [apply single_key_total|].
  split; [apply must_string_total|].
  intros Hname.
  assert (Hn : Name cfg = Panic (TypeAssertion "name")).
  { apply Name_panics_iff. unfold has_string, Get in *.
    destruct (as_string (cfg !! "name")); [exfalso; apply Hname; discriminate|].
    reflexivity. }
  subst cfg.
  split; [unfold Validate; unfold_monad; rewrite Hn; reflexivity|].
  split; [unfold Stop; unfold_monad; rewrite Hn; reflexivity|].
  split; [intros msg; unfold BrokerHandler; unfold_monad; rewrite Hn; reflexivity|].
  split.
  { intros fuel topic maxRetryAttempts Hmax. unfold Subscribe. cbn.
    destruct (Z.leb_spec 0 maxRetryAttempts); [|lia].
    unfold Subscribe_attempt. unfold_monad. rewrite Hn. reflexivity. }
  destruct (Start_setup s) as [m0|] eqn:Hs; [|exact I].
  destruct (Start_setup_initial s m0 Hs) as (Hcr & Hc & Hl & Hco & Hm & Hcfg).
  rewrite <- Hcfg in Hn.
  destruct (nameless_step m0 (TypeAssertion "name") ALoop Hcr Hc Hl Hco Hm Hn)
    as (_ & EL & ET).
  rewrite EL, ET. split; [reflexivity|]. split; [reflexivity|].
  intros schedule. unfold Start_result.
  destruct (nameless_run m0 (TypeAssertion "name") schedule Hcr Hc Hl Hco Hm Hn)
    as [E|E]; rewrite E; cbn; rewrite Hc; reflexivity.
Qed.

End Unchecked.

(** * The properties at work on the sample platform *)

Section Instances.
Import Sample.

Example started_is_setup (w : Script) :
  Start_setup (fresh valid w) = Ok (started w).
Proof. reflexivity. Qed.

(** The handshake against the broker that refuses every subscription. *)
Lemma Start_returns_nil_after_failed_subscribe_witness :
  loop (step ALoop (started refusing)) = LSubscribe "sensors/1" 0 None
  /\ exists n : nat,
       loop (run (repeat ALoop n) (step ALoop (started refusing)))
         = LSubscribed (Some (ExtError "connection refused"))
       /\ Start_result
            (run (repeat ALoop n ++ [ALoop; ACallerConnected])
                 (step ALoop (started refusing)))
          = Some None.
Proof.
  split; [vm_compute; reflexivity|].
  eapply (Start_returns_nil_after_failed_subscribe
            (step ALoop (started refusing)) 10 "sensors/1" "worker" addr0);
    vm_compute; reflexivity.
Defined.

(** The same run, schedule and all: four refused attempts, then nil. *)
Example failed_subscribe_schedule :
  let m := run (repeat ALoop 7 ++ [ACallerConnected]) (started refusing) in
  Start_result m = Some None
  /\ length (subscribe_tokens (trace (st m))) = 4%nat
  /\ all_failed (subscribe_tokens (trace (st m))).
Proof.
  vm_compute. split; [reflexivity|]. split; [reflexivity|].
  repeat constructor; discriminate.
Qed.

(** The time-out against the client that never reports connected. *)
Lemma Start_timeout_never_returns_witness :
  caller (run [ALoop; ALoop] (started never_live)) = CSelect
  /\ Start_result
       (run [ALoop; ACallerConnected; ACallerError; AMonitorTick 0; ALoop]
            (step ACallerTimeout (run [ALoop; ALoop] (started never_live))))
     = None.
Proof.
  split; [vm_compute; reflexivity|].
  apply (Start_timeout_never_returns
           (run [ALoop; ALoop] (started never_live)) "worker" addr0);
    vm_compute; reflexivity.
Defined.

(** The budget of the specification's example: two refusals, then a
    subscription. *)
Lemma Subscribe_bounded_retry_witness :
  exists r s' new,
    Subscribe 10 "sensors/1" 3
      (running valid (mkScript [] [] [refused; refused; ok] []) q0)
      = Some (Done r s')
    /\ trace s' = ([] ++ new)%list
    /\ Z.of_nat (length (subscribe_tokens new)) <= 3 + 1
    /\ match r with
       | None =>
           exists fails t,
             subscribe_tokens new = (fails ++ [t])%list
             /\ all_failed fails /\ MQTT.failed t = None
       | Some e =>
           Z.of_nat (length (subscribe_tokens new)) = 3 + 1
           /\ all_failed (subscribe_tokens new)
           /\ exists t, last (subscribe_tokens new) = Some t
                        /\ MQTT.failed t = Some e
       end.
Proof.
  apply (Subscribe_bounded_retry 10 "sensors/1" 3
           (running valid (mkScript [] [] [refused; refused; ok] []) q0)
           0 "worker" "sensors/1").
  - unfold int_max. lia.
  - cbn. lia.
  - reflexivity.
  - vm_compute. reflexivity.
  - vm_compute. reflexivity.
Defined.

(** The two runs the specification gives for a budget of 3. *)
Example Subscribe_third_attempt_succeeds :
  exists s',
    Subscribe 10 "sensors/1" 3
      (running valid (mkScript [] [] [refused; refused; ok] []) q0)
      = Some (Done None s')
    /\ subscribe_tokens (trace s') = [refused; refused; ok].
Proof. eexists. split; vm_compute; reflexivity. Qed.

Example Subscribe_four_attempts_fail :
  exists s',
    Subscribe 10 "sensors/1" 3 (running valid refusing q0)
      = Some (Done (Some (ExtError "connection refused")) s')
    /\ subscribe_tokens (trace s') = [refused; refused; refused; refused].
Proof. eexists. split; vm_compute; reflexivity. Qed.

(** C3 as the specification states it fails for the largest [int]:
    against the broker that refuses every subscription, [Subscribe] with
    that budget does not return, whatever the time it is given. *)
Lemma Subscribe_int_max_never_returns :
  ~ exists fuel o,
      Subscribe fuel "sensors/1" int_max (running valid refusing q0) = Some o.
Proof.
  intros (fuel & o & H). unfold Subscribe in H.
  rewrite Subscribe_loop_int_max in H; try reflexivity; [discriminate H|].
  unfold int_max. lia.
Qed.

(** The loss of the connection after a successful [Start]. *)
Lemma reconnect_closes_connected_twice_witness :
  Start_result (run reconnect (started lost_once)) = Some None
  /\ loop (run reconnect (started lost_once)) = LSubscribed None
  /\ crashed (step ALoop (run reconnect (started lost_once)))
     = Some CloseOfClosedChannel.
Proof.
  split; [vm_compute; reflexivity|]. split; [vm_compute; reflexivity|].
  apply (reconnect_closes_connected_twice (fresh valid lost_once)
           (started lost_once) reconnect None);
    vm_compute; reflexivity.
Defined.

(** In that run the loop had made a second client and subscribed with
    it before it panicked. *)
Example reconnect_made_second_client :
  let m := run reconnect (started lost_once) in
  clients (st m) = 2%nat
  /\ conn (self (st m)) = Some 1%nat
  /\ In (CSubscribe 1 "sensors/1" 0 ok) (trace (st m)).
Proof. vm_compute. intuition. Qed.

Lemma Stop_graceful_witness :
  conn (self (running valid (mkScript [] [true] [] [refused]) q0)) = Some 0%nat
  /\ exists s',
       Stop (running valid (mkScript [] [true] [] [refused]) q0) = Done None s'.
Proof.
  split; [reflexivity|].
  destruct (Stop_graceful (running valid (mkScript [] [true] [] [refused]) q0)
              0 "worker" eq_refl eq_refl) as [_ H].
  eexists. apply (H eq_refl "sensors/1" eq_refl).
Defined.

(** The order of the calls of [Stop], on a connected and on a
    disconnected transport. *)
Example Stop_connected_calls :
  exists s',
    Stop (running valid (mkScript [] [true] [] [refused]) q0) = Done None s'
    /\ without_logs (trace s')
       = [CIsConnected 0 true; CUnsubscribe 0 "sensors/1" refused;
          CDisconnect 0 5; CSleep 5000000000].
Proof. eexists. split; vm_compute; reflexivity. Qed.

Example Stop_disconnected_calls :
  exists s',
    Stop (running valid (mkScript [] [false] [] []) q0) = Done None s'
    /\ without_logs (trace s')
       = [CIsConnected 0 false].
Proof. eexists. split; vm_compute; reflexivity. Qed.

Lemma BrokerHandler_enqueues_or_drops_witness :
  (exists s',
     BrokerHandler (P := Plain) "21.5" (running valid refusing q0) = Done tt s'
     /\ events (self s') = Some (mkChan ["21.5"] 2 []))
  /\ (exists s',
        BrokerHandler (P := Plain) "" (running valid refusing q0) = Done tt s'
        /\ events (self s') = Some q0).
Proof.
  split.
  - destruct (BrokerHandler_enqueues_or_drops (P := Plain) "21.5"
                (running valid refusing q0) "worker" q0 eq_refl eq_refl)
      as [H _].
    eexists. split; [exact H | reflexivity].
  - pose proof (BrokerHandler_enqueues_or_drops (P := Plain) ""
                  (running valid refusing q0) "worker" q0 eq_refl eq_refl) as H.
    eexists. split; [exact H | reflexivity].
Defined.

Lemma GetBrokerAddr_uri_witness :
  GetBrokerAddr valid = Ok "tcp://10.0.0.1:1883?timeout=10s"
  /\ c_GetBrokerAddr (fresh valid refusing)
     = Done "tcp://10.0.0.1:1883?timeout=10s" (fresh valid refusing).
Proof.
  apply (GetBrokerAddr_uri (fresh valid refusing) connection
           "tcp" "10.0.0.1:1883");
    vm_compute; reflexivity.
Defined.

Lemma Subscribe_negative_budget_witness :
  -1 < 0
  /\ Subscribe 1 "sensors/1" (-1) (running valid refusing q0)
     = Some (Done None (running valid refusing q0)).
Proof.
  split; [lia|].
  apply (Subscribe_negative_budget 0 "sensors/1" (-1)). lia.
Defined.

(** C10 as the specification states it fails for [Subscribe]: with a
    negative budget it returns nil on a connection that has no name. *)
Lemma Subscribe_nameless_returns :
  Name nameless = Panic (TypeAssertion "name")
  /\ Subscribe 1 "sensors/1" (-1) (running nameless refusing q0)
     = Some (Done None (running nameless refusing q0)).
Proof. split; vm_compute; reflexivity. Qed.

Lemma unchecked_assertions_panic_witness :
  Validate (running nameless refusing q0) = Panicked (TypeAssertion "name")
  /\ Stop (running nameless refusing q0) = Panicked (TypeAssertion "name")
  /\ Subscribe 1 "sensors/1" 0 (running nameless refusing q0)
     = Some (Panicked (TypeAssertion "name")).
Proof.
  destruct (unchecked_assertions_panic (running nameless refusing q0))
    as (_ & _ & _ & _ & _ & H).
  destruct H as (Hv & Hs & _ & Hsub & _).
  - unfold has_string. vm_compute. congruence.
  - split; [exact Hv|]. split; [exact Hs|].
    apply (Hsub 0%nat "sensors/1" 0). lia.
Defined.

End Instances.

(** * Further properties of the package *)

(** ** Validate and what follows from it *)

Lemma append_cons (c : Ascii.ascii) (a b : string) :
  String c a ++ b = String c (a ++ b).
Proof. reflexivity. Qed.

Lemma prefix_app (a s : string) :
  String.prefix a s = true <-> exists post : string, s = a ++ post.
Proof.
  revert s. induction a as [|c a IH]; intros s.
  - split; [exists s; reflexivity | intros _; destruct s; reflexivity].
  - destruct s as [|c' s]; cbn.
    + split; [discriminate | intros [post H]; discriminate H].
    + destruct (Ascii.ascii_dec c c') as [->|Hne].
      * rewrite IH. split; intros [post H]; exists post;
          rewrite append_cons in *; congruence.
      * split; [discriminate|].
        intros [post H]. rewrite append_cons in H. congruence.
Qed.

Lemma Contains_spec (s substr : string) :
  Contains s substr = true <-> exists pre post : string, s = pre ++ substr ++ post.
Proof.
  induction s as [|c s IH]; cbn [Contains]; rewrite orb_true_iff, prefix_app.
  - split.
    + intros [[post H] | H]; [exists "", post; exact H | discriminate H].
    + intros (pre & post & H). left. destruct pre; [|discriminate H].
      exists post. exact H.
  - rewrite IH. split.
    + intros [[post H] | (pre & post & H)].
      * exists "", post. exact H.
      * exists (String c pre), post. rewrite append_cons. congruence.
    + intros (pre & post & H). destruct pre as [|c' pre].
      * left. exists post. exact H.
      * right. exists pre, post. rewrite append_cons in H. congruence.
Qed.

Lemma StringInSlice_In (s : string) (l : list string) :
  StringInSlice s l = true <-> In s l.
Proof.
  unfold StringInSlice. rewrite existsb_exists. split.
  - intros (x & Hx & E). apply String.eqb_eq in E. congruence.
  - intros H. exists s. split; [exact H | apply String.eqb_refl].
Qed.

Lemma as_string_Some (x : option Value) (v : string) :
  as_string x = Some v <-> x = Some (VString v).
Proof.
  unfold as_string. destruct x as [[| | |]|]; split; congruence.
Qed.

Section Validation.
Context `{T : Transport} `{P : Platform}.

(** A configuration the checks accept meets every rule. *)
Lemma Validate_checks_accepted (cfg : gmap string Value) :
  Validate_checks cfg = Ok None ->
  exists data, Get cfg "connection" = Some (VMap data) /\ valid_connection data.
Proof.
  unfold Validate_checks, valid_connection, ok_string.
  - destruct (Get cfg "connection") as [[| | |data]|]; cbn; try discriminate.
    destruct (as_string (data !! "network")) as [n|] eqn:En; cbn;
      [|discriminate].
    apply as_string_Some in En. rewrite En. cbn.
    destruct (StringInSlice n AvailableConnectionTypes) eqn:Hin; cbn;
      [|discriminate].
    destruct (as_string (data !! "address")) as [a|] eqn:Ea; cbn;
      [|discriminate].
    apply as_string_Some in Ea. rewrite Ea. cbn.
    destruct (len a <? 5)%Z eqn:Hlen; cbn; [discriminate|].
    destruct (Contains a ":") eqn:Hcol; cbn; [|discriminate].
    destruct (as_string (data !! "username")) as [u|] eqn:Eu; cbn;
      [|discriminate].
    destruct (as_string (data !! "password")) as [pw|] eqn:Ep; cbn;
      [|discriminate].
    destruct (data !! "clientId") as [[id| | |]|] eqn:Ei; cbn; try discriminate.
    destruct (len id <? 2)%Z eqn:Hid; cbn; [discriminate|].
    destruct (as_string (data !! "topic")) as [tp|] eqn:Et; cbn;
      [|discriminate].
    intros _. exists data. split; [reflexivity|].
    exists n, a, u, pw, id, tp.
    apply as_string_Some in Eu, Ep, Et.
    apply StringInSlice_In in Hin. apply Contains_spec in Hcol.
    apply Z.ltb_ge in Hlen, Hid. auto 12.
Qed.

(** X1. [Validate] accepts a configuration exactly when it has a
    connection block that meets every rule; it does so without a panic. *)
Theorem Validate_checks_accepts_iff (cfg : gmap string Value) :
  Validate_checks cfg = Ok None
  <-> exists data, Get cfg "connection" = Some (VMap data) /\ valid_connection data.
Proof.
  split; [apply Validate_checks_accepted|].
  unfold Validate_checks, valid_connection, ok_string.
  intros (data & Hc & n & a & u & pw & id & tp
          & En & Hin & Ea & Hlen & Hcol & Eu & Ep & Ei & Hid & Et).
  rewrite Hc. cbn. rewrite En. cbn.
  apply StringInSlice_In in Hin. rewrite Hin. cbn. rewrite Ea. cbn.
  apply Contains_spec in Hcol. rewrite Hcol.
  apply Z.ltb_ge in Hlen, Hid. rewrite Hlen. cbn.
  rewrite Eu, Ep. cbn. rewrite Ei. cbn. rewrite Hid, Et. reflexivity.
Qed.


(** X3. A configuration whose [connection] entry is there but is not a
    map makes [Validate] panic, on the type assertion of line 181. *)
Theorem Validate_connection_not_a_map (s : State) (name : string) (v : Value) :
  Name (Config (self s)) = Ok name ->
  Get (Config (self s)) "connection" = Some v ->
  (forall data, v <> VMap data) ->
  Validate s = Panicked (TypeAssertion "connection").
Proof.
  intros Hn Hc Hv. unfold Validate. unfold_monad. rewrite Hn. cbn.
  unfold Validate_checks. rewrite Hc. cbn.
  destruct v as [| | |data]; try reflexivity.
  exfalso. apply (Hv data). reflexivity.
Qed.

(** X4. Whatever [Validate] returns, all it has done is to log one line:
    the connection, the network and the rest of the trace are as they
    were; no call to the transport is made. *)
Theorem Validate_only_logs (s s' : State) (r : option error) :
  Validate s = Done r s' ->
  exists name,
    Name (Config (self s)) = Ok name
    /\ s' = record (CLog LInfo "Validating mqtt configuration for (worker: %q)"
                      [AString name]) s.
Proof.
  unfold Validate. unfold_monad.
  destruct (Name (Config (self s))) as [name|]; cbn; [|discriminate].
  destruct (Validate_checks _); cbn; [|discriminate].
  intros H. injection H as _ <-. exists name. auto.
Qed.

End Validation.

(** ** Subscribe, Stop and BrokerHandler at their edges *)

Lemma without_logs_app (l1 l2 : list call) :
  without_logs (l1 ++ l2) = (without_logs l1 ++ without_logs l2)%list.
Proof. apply List.filter_app. Qed.

Lemma chan_send_wf {A} (x : A) (q : chan A) :
  chan_wf q ->
  chan_wf (chan_send x q)
  /\ cap (chan_send x q) = cap q
  /\ chan_pending (chan_send x q) = (chan_pending q ++ [x])%list.
Proof.
  unfold chan_wf, chan_send, chan_pending, chan_full. intros [Hlen Hq].
  destruct (negb (length (buf q) <? cap q)%nat) eqn:Hf; cbn [buf cap sendq].
  - split; [split; [exact Hlen | rewrite Hf; discriminate]|].
    split; [reflexivity | apply app_assoc].
  - rewrite (Hq eq_refl).
    apply negb_false_iff, Nat.ltb_lt in Hf.
    split; [split; [rewrite length_app; cbn; lia | reflexivity]|].
    split; [reflexivity | rewrite !app_nil_r; reflexivity].
Qed.

Section Edges.
Context `{T : Transport} `{P : Platform}.

Lemma Subscribe_attempt_calls (topic : string) (i : Z) (s s1 : State)
    (h : nat) (t : turn) :
  conn (self s) = Some h ->
  Subscribe_attempt topic i s = Done t s1 ->
  self s1 = self s /\ clients s1 = clients s
  /\ exists new tok,
       trace s1 = (trace s ++ new)%list
       /\ without_logs new = [CSubscribe h topic 0 tok]
       /\ subscribe_tokens new = [tok].
Proof.
  intros Hc. unfold Subscribe_attempt. unfold_monad.
  destruct (Name (Config (self s))) as [name|] eqn:Hn; cbn; [|discriminate].
  rewrite Hc. cbn.
  set (r := client_Subscribe h topic 0 (world s)).
  destruct (MQTT.failed r.1); cbn.
  - intros H. injection H as _ <-. cbn. split; [reflexivity|].
    split; [reflexivity|].
    eexists [_; _; _], r.1. rewrite <- !app_assoc. cbn. auto.
  - rewrite Hn. cbn. destruct (GetBrokerTopicName _); cbn; [|discriminate].
    intros H. injection H as _ <-. cbn. split; [reflexivity|].
    split; [reflexivity|].
    eexists [_; _; _], r.1. rewrite <- !app_assoc. cbn. auto.
Qed.

(** X5. Whatever its budget and however it ends, a [Subscribe] that
    returns has left the connection as it was and has called nothing of
    the transport but the subscription to its topic, with quality of
    service 0, on the client the connection holds. *)
Theorem Subscribe_only_subscribes (fuel : nat) (topic : string)
    (maxRetryAttempts : Z) (h : nat) :
  forall (i : Z) (err r : option error) (s s' : State),
  conn (self s) = Some h ->
  Subscribe_loop fuel topic maxRetryAttempts i err s = Some (Done r s') ->
  self s' = self s /\ clients s' = clients s
  /\ exists new,
       trace s' = (trace s ++ new)%list
       /\ without_logs new = map (CSubscribe h topic 0) (subscribe_tokens new).
Proof.
  induction fuel as [|fuel IH]; intros i err r s s' Hc H; [discriminate H|].
  cbn in H. destruct (_ <=? _)%Z.
  - destruct (Subscribe_attempt topic i s) as [[e|] s1 | p | s1] eqn:Ha;
      try discriminate H;
      destruct (Subscribe_attempt_calls topic i s s1 h _ Hc Ha)
        as (Hs & Hcl & new & tok & Htr & Hw & Htok).
    + destruct (IH _ _ _ s1 s' (eq_trans (f_equal conn Hs) Hc) H)
        as (Hs' & Hcl' & new' & Htr' & Hw').
      split; [congruence|]. split; [congruence|].
      exists (new ++ new')%list. split.
      * rewrite Htr', Htr, app_assoc. reflexivity.
      * rewrite without_logs_app, subscribe_tokens_app, map_app, Hw, Hw', Htok.
        reflexivity.
    + injection H as _ <-. split; [exact Hs|]. split; [exact Hcl|].
      exists new. split; [exact Htr|]. rewrite Hw, Htok. reflexivity.
  - injection H as _ <-. split; [reflexivity|]. split; [reflexivity|].
    exists []. rewrite app_nil_r. auto.
Qed.

(** X6. On a connection that has a name but no client yet (before
    [Start] has made one) [Stop] panics, and so does [Subscribe] unless
    its budget is negative: both call a method of the nil client. *)
Theorem nil_client_panics (s : State) (name : string) :
  conn (self s) = None ->
  Name (Config (self s)) = Ok name ->
  Stop s = Panicked NilDereference
  /\ forall (fuel : nat) (topic : string) (maxRetryAttempts : Z),
       0 <= maxRetryAttempts ->
       Subscribe (S fuel) topic maxRetryAttempts s = Some (Panicked NilDereference).
Proof.
  intros Hc Hn. split.
  - unfold Stop. unfold_monad. rewrite Hn. cbn. rewrite Hc. reflexivity.
  - intros fuel topic maxRetryAttempts Hm. unfold Subscribe. cbn.
    destruct (Z.leb_spec 0 maxRetryAttempts); [|lia].
    unfold Subscribe_attempt. unfold_monad. rewrite Hn. cbn. rewrite Hc.
    reflexivity.
Qed.

(** What [BrokerHandler] does with a message that decodes. *)
Lemma BrokerHandler_decoded (msg : Message) (s : State) (name : string) :
  Name (Config (self s)) = Ok name ->
  (NewEvent msg).2 = None ->
  BrokerHandler msg s =
    send_events (NewEvent msg).1
      (record (CLog LInfo "Event successfully created (data: %v)" [AOpaque])
         (record (CNewEvent None)
            (record (CLog LInfo
               "Received new mqtt (worker: %s) - (message: %s) for (topic: %s). Building event now ..."
               [AString name; AString (Payload msg); AString (Topic msg)]) s))).
Proof.
  intros Hn Hd. unfold BrokerHandler. unfold_monad. rewrite Hn. cbn.
  rewrite Hd. reflexivity.
Qed.

(** X7. Before [Start] has made the drain queue, a message that decodes
    parks [BrokerHandler] for ever on the send to the nil channel: the
    handler never returns and the event is kept nowhere. *)
Theorem BrokerHandler_without_queue_parks (msg : Message) (s : State)
    (name : string) :
  Name (Config (self s)) = Ok name ->
  events (self s) = None ->
  (NewEvent msg).2 = None ->
  exists s',
    BrokerHandler msg s = Parked s'
    /\ self s' = self s /\ world s' = world s
    /\ without_logs (trace s') = (without_logs (trace s) ++ [CNewEvent None])%list.
Proof.
  intros Hn Hq Hd. rewrite (BrokerHandler_decoded msg s name Hn Hd).
  unfold send_events. cbn. rewrite Hq.
  eexists. split; [reflexivity|]. cbn. split; [reflexivity|].
  split; [reflexivity|].
  rewrite !without_logs_app. cbn. rewrite !app_nil_r. reflexivity.
Qed.

(** X8. [BrokerHandler] keeps the drain queue within its capacity and
    loses nothing: after a message that decodes, what is pending on the
    queue is what was pending followed by the decoded event, the buffer
    is still no longer than the capacity, and the capacity is the same. *)
Theorem BrokerHandler_keeps_queue_bounded (msg : Message) (s : State)
    (name : string) (q : chan Event) :
  Name (Config (self s)) = Ok name ->
  events (self s) = Some q ->
  chan_wf q ->
  (NewEvent msg).2 = None ->
  exists s' q',
    reached (BrokerHandler msg s) = Some s'
    /\ DrainEvents (self s') = Some q'
    /\ chan_wf q'
    /\ cap q' = cap q
    /\ chan_pending q' = (chan_pending q ++ [(NewEvent msg).1])%list.
Proof.
  intros Hn Hq Hwf Hd. rewrite (BrokerHandler_decoded msg s name Hn Hd).
  unfold send_events. cbn. rewrite Hq.
  destruct (chan_send_wf (NewEvent msg).1 q Hwf) as (Hwf' & Hcap & Hp).
  eexists _, (chan_send (NewEvent msg).1 q).
  split; [destruct (chan_full q); reflexivity|].
  split; [reflexivity|]. auto.
Qed.

(** X9. From the handler to the consumer and back: on an empty drain
    queue, whatever its capacity, the event [BrokerHandler] has sent is
    the one the next receive on [DrainEvents] yields, and the queue is
    empty again. *)
Theorem BrokerHandler_then_receive (msg : Message) (s : State)
    (name : string) (n : nat) :
  Name (Config (self s)) = Ok name ->
  events (self s) = Some (mkChan [] n []) ->
  (NewEvent msg).2 = None ->
  exists s' q',
    reached (BrokerHandler msg s) = Some s'
    /\ DrainEvents (self s') = Some q'
    /\ chan_recv q' = Some ((NewEvent msg).1, mkChan [] n []).
Proof.
  intros Hn Hq Hd. rewrite (BrokerHandler_decoded msg s name Hn Hd).
  unfold send_events. cbn. rewrite Hq.
  eexists _, (chan_send (NewEvent msg).1 (mkChan [] n [])).
  split; [destruct (chan_full _); reflexivity|].
  split; [reflexivity|].
  unfold chan_send, chan_full. cbn. destruct n; reflexivity.
Qed.

End Edges.

(** ** The goroutines of Start *)

Section Goroutines.
Context `{T : Transport} `{P : Platform}.
#[local] Existing Instances M_ret M_bind.

(** What the loop does at its top, up to the call of [c.Subscribe]. *)
Lemma loop_top_moves (s s' : State) (pc : loop_pc) :
  (name ← c_Name;
   addr ← c_GetBrokerAddr;
   Info "Starting MQTT (connection: %s) on (addr: %s)..."
        [AString name; AString addr];;
   new_client;;
   token ← conn_Connect;
   match MQTT.failed token with
   | Some e =>
       mret (LSendError (Errorf
         "Failed to establish connection with mqtt server (error: %s)"
         [AError e]))
   | None =>
       live ← conn_IsConnected;
       if negb live then mret LTop
       else
         topic ← c_GetBrokerTopicName;
         mret (LSubscribe topic 0 None)
   end) s = Done pc s' ->
  loop_moves LTop pc.
Proof.
  unfold_monad. unfold new_client.
  destruct (Name (Config (self s))); cbn; [|discriminate].
  destruct (GetBrokerAddr (Config (self s))); cbn; [|discriminate].
  destruct (MQTT.failed _); cbn.
  - intros H. injection H as <- _. constructor.
  - destruct (negb _); cbn.
    + intros H. injection H as <- _. constructor.
    + destruct (GetBrokerTopicName _); cbn; [|discriminate].
      intros H. injection H as <- _. constructor.
Qed.

(** Every step of the program is one of the moves. *)
Lemma step_moves (a : action) (m : Machine) : moves a m (step a m).
Proof.
  unfold step. destruct (crashed m); [apply mv_stay; reflexivity|].
  destruct a.
  - unfold loop_step. destruct (loop m) eqn:Hl; try solve [apply mv_stay; auto].
    + unfold exec.
      match goal with |- context [match ?c (st m) with _ => _ end] =>
        destruct (c (st m)) as [pc s | p | s] eqn:Hc end;
        try solve [apply mv_stay; auto].
      apply mv_loop; try reflexivity. cbn. rewrite Hl.
      eapply loop_top_moves, Hc.
    + destruct (_ <=? _)%Z.
      * unfold exec.
        destruct (Subscribe_attempt topic i (st m)) as [[e|] s | p | s];
          try solve [apply mv_stay; auto];
          apply mv_loop; try reflexivity; cbn; rewrite Hl; constructor.
      * apply mv_loop; try reflexivity. cbn. rewrite Hl. constructor.
    + destruct (connected m) eqn:Hc; [apply mv_stay; reflexivity|].
      eapply mv_close; try reflexivity; eassumption.
    + apply mv_loop; try reflexivity. cbn. rewrite Hl. constructor.
  - unfold caller_connected. destruct (caller m) eqn:Hc; try solve [apply mv_stay; auto].
    destruct (connected m) eqn:Hco; [|solve [apply mv_stay; auto]].
    unfold exec.
    match goal with |- context [match ?c (st m) with _ => _ end] =>
      destruct (c (st m)) as [x s | p | s] end;
      try solve [apply mv_stay; auto].
    apply mv_connected; auto.
  - unfold caller_error. destruct (caller m) eqn:Hc; try solve [apply mv_stay; auto].
    destruct (loop m) eqn:Hl; try solve [apply mv_stay; auto].
    eapply mv_error; try reflexivity; eassumption.
  - unfold caller_timeout. destruct (caller m) eqn:Hc; try solve [apply mv_stay; auto].
    unfold exec.
    match goal with |- context [match ?c (st m) with _ => _ end] =>
      destruct (c (st m)) as [x s | p | s] end;
      try solve [apply mv_stay; auto].
    eapply mv_timeout; try reflexivity; eassumption.
  - unfold monitor_tick.
    destruct (monitors m !! g) as [[]|] eqn:Hg; try solve [apply mv_stay; auto].
    unfold exec, conn_IsConnected, on_conn.
    destruct (conn (self (st m))) as [h|]; [|solve [apply mv_stay; auto]].
    destruct (client_IsConnected h (world (st m))).1 eqn:Hlive;
      [solve [apply mv_stay; auto]|].
    eapply mv_lost; try reflexivity; eassumption.
  - unfold monitor_done.
    destruct (monitors m !! g) as [[]|] eqn:Hg; try solve [apply mv_stay; auto].
    unfold exec.
    match goal with |- context [match ?c (st m) with _ => _ end] =>
      destruct (c (st m)) as [x s | p | s] end;
      try solve [apply mv_stay; auto].
    eapply mv_done; try reflexivity; eassumption.
  - unfold reload.
    destruct (monitors m !! g) as [[]|] eqn:Hg; try solve [apply mv_stay; auto].
    destruct (loop m) eqn:Hl; try solve [apply mv_stay; auto].
    destruct (Nat.eqb_spec g g0) as [<-|]; [|solve [apply mv_stay; auto]].
    unfold exec.
    match goal with |- context [match ?c (st _) with _ => _ end] =>
      destruct (c _) as [x s | p | s] end;
      try solve [eapply mv_reload_panic; try reflexivity; eassumption].
    eapply mv_reload; try reflexivity; eassumption.
Qed.

(** What the moves keep, every run keeps. *)
Lemma run_invariant (I : Machine -> Prop) :
  (forall a m m', moves a m m' -> I m -> I m') ->
  forall (schedule : list action) (m : Machine), I m -> I (run schedule m).
Proof.
  intros Hstep schedule. induction schedule as [|a l IH]; intros m Hm; [exact Hm|].
  cbn. change (fold_left _ l (step a m)) with (run l (step a m)).
  apply IH. eapply Hstep; [apply step_moves | exact Hm].
Qed.

End Goroutines.

(** Rewrite with what a move says of the state it leads to. *)
Ltac moved :=
  repeat match goal with
         | H : ?f ?m' = _ |- context [?f ?m'] => rewrite H
         end.

Section Supervision.
Context `{T : Transport} `{P : Platform}.
#[local] Existing Instances M_ret M_bind.

(** X10. The only error [Start] ever returns is the one the loop makes
    of a failed connect: whatever the transport and the schedule, an
    error returned by [Start] is "Failed to establish connection with
    mqtt server" wrapping the error of the connect. *)
Theorem Start_error_is_connect_failure (s : State) (m0 : Machine)
    (schedule : list action) (e : error) :
  Start_setup s = Ok m0 ->
  Start_result (run schedule m0) = Some (Some e) ->
  connect_failure e.
Proof.
  intros Hs Hr.
  pose (I := fun m : Machine =>
    (forall e, caller m = CReturned (Some e) -> connect_failure e)
    /\ (forall e, loop m = LSendError e -> connect_failure e)).
  assert (HI : I (run schedule m0)).
  { apply run_invariant.
    - intros a m m' Hmv [Hc Hl].
      destruct Hmv as [| Hlm | | | | | | | |]; split; intros x; moved;
        try solve [auto | discriminate | congruence].
      + intros Hx. destruct Hlm; try discriminate Hx.
        injection Hx as <-. eexists. reflexivity.
      + intros Hx. injection Hx as <-. auto.
    - destruct (Start_setup_initial s m0 Hs) as (_ & Hc & Hl & _).
      split; intros x; rewrite ?Hc, ?Hl; discriminate. }
  unfold Start_result in Hr.
  destruct (caller (run schedule m0)) eqn:Hc; try discriminate Hr.
  injection Hr as ->. destruct HI as [H1 _]. apply H1, Hc.
Qed.


(** X12. Once [Start] has left its select, a connect that fails parks
    the loop on its send to [errors] for good: under every schedule the
    loop stays there, so it never connects again. *)
Theorem unread_error_parks_loop (m : Machine) (e : error)
    (schedule : list action) :
  caller m <> CSelect ->
  loop m = LSendError e ->
  loop (run schedule m) = LSendError e.
Proof.
  intros Hc Hl.
  apply (run_invariant
           (fun m => caller m <> CSelect /\ loop m = LSendError e));
    [|split; assumption].
  clear. intros a m m' Hmv [Hc Hl].
  destruct Hmv as [| Hlm | | | | | | | |]; moved;
    try solve [split; congruence | congruence].
  rewrite Hl in Hlm. inversion Hlm.
Qed.

(** X13. A monitor that takes the stop signal while the loop waits for
    it ends every further attempt: under every schedule the loop stays
    parked on [<-reload], so it makes no new client; it does not return
    either. *)
Theorem stop_signal_ends_reconnection (m : Machine) (g : nat)
    (schedule : list action) :
  crashed m = None ->
  monitors m !! g = Some MSelect ->
  loop m = LWaitReload g ->
  loop (run schedule (step (AMonitorDone g) m)) = LWaitReload g.
Proof.
  intros Hcr Hg Hl.
  unfold step. rewrite Hcr. unfold monitor_done. rewrite Hg.
  unfold exec. unfold_monad.
  destruct (Name (Config (self (st m)))) as [name|p]; cbn.
  - apply (run_invariant
             (fun m => monitors m !! g = Some MReturned /\ loop m = LWaitReload g)).
    + clear. intros a m m' Hmv [Hg Hl].
      destruct Hmv as [| Hlm | | | | | g' ? ? Hg' | g' Hg' | g' Hg' | g' Hg'];
        moved; try solve [split; congruence | congruence].
      * rewrite Hl in Hlm. inversion Hlm.
      * split; [|congruence]. rewrite list_lookup_insert_ne; congruence.
      * split; [|congruence]. rewrite list_lookup_insert_ne; congruence.
    + cbn. split; [|exact Hl]. apply list_lookup_insert_eq.
      eapply lookup_lt_Some, Hg.
  - rewrite (run_crashed schedule _ p); [exact Hl | reflexivity].
Qed.

(** X14. A first connect that fails is final for [Start]: from the
    moment the loop is parked on the send of that error with the caller
    in its select, [Start] returns that error or does not return; it
    never returns nil, even if a later connect would succeed. *)
Theorem first_connect_failure_is_final (m : Machine) (e : error)
    (schedule : list action) :
  caller m = CSelect ->
  loop m = LSendError e ->
  connected m = false ->
  Start_result (run schedule m) = None
  \/ Start_result (run schedule m) = Some (Some e).
Proof.
  intros Hc Hl Hco.
  pose (I := fun m : Machine =>
    (caller m = CSelect /\ loop m = LSendError e /\ connected m = false)
    \/ caller m = CReturned (Some e)
    \/ exists e', caller m = CSendTimeout e').
  assert (HI : I (run schedule m)).
  { apply run_invariant; [|left; auto].
    clear. intros a m m' Hmv HI.
    destruct HI as [(Hc & Hl & Hco) | [Hc | [e' Hc]]].
    - destruct Hmv as [| Hlm | | | | | | | |]; unfold I; moved;
        try solve [left; auto | congruence].
      + rewrite Hl in Hlm. inversion Hlm.
      + right. left. congruence.
      + right. right. eauto.
    - right. left.
      destruct Hmv; moved; congruence.
    - right. right. exists e'.
      destruct Hmv; moved; congruence. }
  unfold Start_result.
  destruct HI as [(Hc' & _) | [Hc' | [e' Hc']]]; rewrite Hc'; auto.
Qed.

(** X15. The loop starts a monitor when, and only when, it closes
    [connected]: in every state the program reaches there is one
    monitor if [connected] is closed and none otherwise, so never more
    than one in the life of the program. *)
Theorem at_most_one_monitor (s : State) (m0 : Machine) (schedule : list action) :
  Start_setup s = Ok m0 ->
  length (monitors (run schedule m0))
    = if connected (run schedule m0) then 1%nat else 0%nat.
Proof.
  intros Hs.
  apply (run_invariant
           (fun m => length (monitors m) = if connected m then 1%nat else 0%nat)).
  - clear. intros a m m' Hmv HI.
    destruct Hmv as [| | r Hl Hco | | | | | | |]; revert HI; moved;
      rewrite ?length_insert; intros HI; try exact HI.
    rewrite length_app, HI. reflexivity.
  - destruct (Start_setup_initial s m0 Hs) as (_ & _ & _ & Hco & Hm & _).
    rewrite Hco, Hm. reflexivity.
Qed.

(** X16. On a transport that reports connected whenever it is asked, a
    loop that waits for its monitor waits for ever: no heartbeat sends
    the reload, so there is no reconnection and no new client. *)
Theorem live_transport_never_reloads (m : Machine) (g : nat)
    (schedule : list action) :
  (forall h w, (client_IsConnected h w).1 = true) ->
  loop m = LWaitReload g ->
  Forall (fun pc => pc <> MSendReload) (monitors m) ->
  loop (run schedule m) = LWaitReload g.
Proof.
  intros Hlive Hl Hm.
  apply (run_invariant
           (fun m => Forall (fun pc => pc <> MSendReload) (monitors m)
                     /\ loop m = LWaitReload g));
    [|split; assumption].
  clear - Hlive. intros a m m' Hmv [Hm Hl].
  destruct Hmv as [| Hlm | | | | | g' h w Hg' Hf | g' Hg' | g' Hg' | g' Hg'];
    moved; try solve [split; congruence | congruence].
  - rewrite Hl in Hlm. inversion Hlm.
  - split; [|congruence]. apply Forall_insert; [exact Hm | discriminate].
  - exfalso. rewrite Forall_lookup in Hm. apply (Hm g' _ Hg'). reflexivity.
  - exfalso. rewrite Forall_lookup in Hm. apply (Hm g' _ Hg'). reflexivity.
Qed.

End Supervision.

Section Handshake.
Context `{T : Transport} `{P : Platform}.
#[local] Existing Instances M_ret M_bind.

(** The set-up of [Start] changes nothing of the state but the queue. *)
Lemma Start_setup_state (s : State) (m0 : Machine) :
  Start_setup s = Ok m0 ->
  (exists addr, GetBrokerAddr (Config (self s)) = Ok addr)
  /\ Config (self (st m0)) = Config (self s)
  /\ world (st m0) = world s
  /\ clients (st m0) = clients s
  /\ trace (st m0) = trace s.
Proof.
  unfold Start_setup. intros Hs.
  destruct (GetBrokerAddr _) as [addr|]; [|discriminate Hs].
  destruct (GetBrokerClientID _); [|discriminate Hs].
  destruct (GetBrokerCredentials _); [|discriminate Hs].
  cbn in Hs. destruct (_ <? 0)%Z; [discriminate Hs|].
  injection Hs as <-. cbn. eauto 10.
Qed.

(** X17. The first handshake. When the first client connects without
    error, reports connected, and its first subscription succeeds, then
    after three steps of the loop and the caller taking [<-connected],
    [Start] has returned nil; the loop waits for its one monitor, the
    connection holds the new client, and the transport has been asked,
    in this order, to connect, whether it is connected, and to subscribe
    to the configured topic. *)
Theorem first_handshake_succeeds (s : State) (m0 : Machine)
    (name topic : string) :
  Start_setup s = Ok m0 ->
  Name (Config (self s)) = Ok name ->
  GetBrokerTopicName (Config (self s)) = Ok topic ->
  0 <= MaxTopicSubscribeAttempts ->
  let h := clients s in
  let c := client_Connect h (world s) in
  let l := client_IsConnected h c.2 in
  let sub := client_Subscribe h topic 0 l.2 in
  MQTT.failed c.1 = None ->
  l.1 = true ->
  MQTT.failed sub.1 = None ->
  let m := run [ALoop; ALoop; ALoop; ACallerConnected] m0 in
  Start_result m = Some None
  /\ crashed m = None
  /\ loop m = LWaitReload 0
  /\ monitors m = [MSelect]
  /\ conn (self (st m)) = Some h
  /\ world (st m) = sub.2
  /\ without_logs (trace (st m))
     = (without_logs (trace s) ++
        [CNewClient h; CConnect h c.1; CIsConnected h true;
         CSubscribe h topic 0 sub.1])%list.
Proof.
  intros Hs Hn Ht Hmax h c l sub Hc Hl Hsub m.
  subst m sub l c h. cbn zeta in *.
  destruct (Start_setup_initial s m0 Hs) as (Hcr & Hca & Hlo & Hco & Hmo & Hcfg).
  destruct (Start_setup_state s m0 Hs) as ([addr Ha] & _ & Hw & Hcl & Htr).
  rewrite <- Hcfg in Hn, Ht, Ha.
  remember (clients s) as h eqn:Eh.
  (* the loop, from its top to the call of Subscribe *)
  assert (E1 : exists s1,
    step ALoop m0 = set_loop (LSubscribe topic 0 None) (set_st s1 m0)
    /\ Config (self s1) = Config (self (st m0))
    /\ conn (self s1) = Some h
    /\ world s1 = (client_IsConnected h (client_Connect h (world s)).2).2
    /\ without_logs (trace s1)
       = (without_logs (trace s) ++
          [CNewClient h; CConnect h (client_Connect h (world s)).1;
           CIsConnected h true])%list).
  { unfold step. rewrite Hcr. unfold loop_step. rewrite Hlo.
    unfold exec. unfold_monad. unfold new_client.
    rewrite Hn. cbn. rewrite Ha. cbn. rewrite Hw, Hcl.
    rewrite Hc. cbn. rewrite Hl. cbn.
    rewrite Ht. cbn. eexists. split; [reflexivity|]. cbn.
    split; [reflexivity|]. split; [reflexivity|]. split; [reflexivity|].
    rewrite Htr, !without_logs_app. cbn. rewrite <- !app_assoc.
    reflexivity. }
  destruct E1 as (s1 & E1 & Hcfg1 & Hconn1 & Hw1 & Htr1).
  rewrite <- Hcfg1 in Hn, Ht, Ha.
  (* the one turn of the loop of Subscribe *)
  assert (E2 : exists s2,
    step ALoop (step ALoop m0) = set_loop (LSubscribed None) (set_st s2 m0)
    /\ Config (self s2) = Config (self s1)
    /\ conn (self s2) = Some h
    /\ world s2 = (client_Subscribe h topic 0 (world s1)).2
    /\ without_logs (trace s2)
       = (without_logs (trace s1)
          ++ [CSubscribe h topic 0 (client_Subscribe h topic 0 (world s1)).1])%list).
  { rewrite E1. unfold step. cbn [crashed set_loop set_st]. rewrite Hcr.
    unfold loop_step. cbn [loop set_loop set_st].
    destruct (Z.leb_spec 0 MaxTopicSubscribeAttempts); [|lia].
    unfold exec. cbn [st set_loop set_st].
    rewrite (Subscribe_attempt_eq topic 0 s1 h name topic Hconn1 Hn Ht).
    cbn zeta. rewrite <- Hw1 in Hsub. rewrite Hsub.
    eexists. split; [reflexivity|]. cbn.
    split; [reflexivity|]. split; [exact Hconn1|]. split; [reflexivity|].
    rewrite !without_logs_app. cbn. rewrite !app_nil_r. reflexivity. }
  destruct E2 as (s2 & E2 & Hcfg2 & Hconn2 & Hw2 & Htr2).
  rewrite <- Hcfg2 in Hn, Ha.
  (* close(connected), the monitor, and the caller *)
  set (m2 := set_loop (LSubscribed None) (set_st s2 m0)) in *.
  set (m3 := set_loop (LWaitReload 0)
               (set_monitors [MSelect] (set_connected true m2))).
  assert (E3 : step ALoop m2 = m3).
  { unfold step. change (crashed m2) with (crashed m0). rewrite Hcr.
    unfold loop_step. change (loop m2) with (LSubscribed None).
    change (connected m2) with (connected m0). rewrite Hco.
    change (monitors m2) with (monitors m0). rewrite Hmo. reflexivity. }
  assert (E4 : exists s4,
    step ACallerConnected m3 = set_caller (CReturned None) (set_st s4 m3)
    /\ self s4 = self s2 /\ world s4 = world s2
    /\ without_logs (trace s4) = without_logs (trace s2)).
  { unfold step. change (crashed m3) with (crashed m0). rewrite Hcr.
    unfold caller_connected. change (caller m3) with (caller m0). rewrite Hca.
    change (connected m3) with true. cbv iota.
    unfold exec. change (st m3) with s2. unfold_monad.
    rewrite Hn. cbn. rewrite Ha. cbn.
    eexists. split; [reflexivity|]. cbn.
    split; [reflexivity|]. split; [reflexivity|].
    rewrite without_logs_app. cbn. apply app_nil_r. }
  destruct E4 as (s4 & E4 & Hself4 & Hw4 & Htr4).
  change (run [ALoop; ALoop; ALoop; ACallerConnected] m0)
    with (step ACallerConnected (step ALoop (step ALoop (step ALoop m0)))).
  rewrite E2, E3, E4. cbn.
  split; [reflexivity|]. split; [exact Hcr|]. split; [reflexivity|].
  split; [reflexivity|]. split; [rewrite Hself4; exact Hconn2|].
  split; [rewrite Hw4, Hw2, Hw1; reflexivity|].
  rewrite Htr4, Htr2, Htr1, Hw1, <- app_assoc. reflexivity.
Qed.

End Handshake.

(** ** What the goroutines of Start keep of the state *)

Section Preservation.
Context `{T : Transport} `{P : Platform}.
#[local] Existing Instances M_ret M_bind.
Variable I : State -> Prop.
Hypothesis I_stable : stable I.

Lemma preserves_ret {A} (a : A) : preserves I (mret a).
Proof. intros s Hs. exact Hs. Qed.

Lemma preserves_bind {A B} (c : M A) (f : A -> M B) :
  preserves I c -> (forall a, preserves I (f a)) -> preserves I (c ≫= f).
Proof.
  intros Hc Hf s Hs. specialize (Hc s Hs).
  unfold mbind, M_bind. destruct (c s) as [a s' | p | s']; try exact Hc.
  apply Hf, Hc.
Qed.

Lemma preserves_lift {A} (r : Result A) : preserves I (lift r).
Proof. intros s Hs. unfold lift. destruct r; [exact Hs | exact Logic.I]. Qed.

Lemma preserves_config : preserves I config.
Proof. intros s Hs. exact Hs. Qed.

Lemma preserves_emit (c : call) : preserves I (emit c).
Proof. intros s Hs. apply I_stable, Hs. Qed.

Lemma preserves_on_conn {A} (f : nat -> World -> A * World)
    (entry : nat -> A -> call) :
  preserves I (on_conn f entry).
Proof.
  intros s Hs. unfold on_conn. destruct (conn (self s)); [|exact Logic.I].
  apply I_stable, I_stable, Hs.
Qed.

Lemma preserves_new_client : preserves I new_client.
Proof.
  intros s Hs. destruct I_stable as (_ & _ & Hnew).
  apply (Hnew s); [reflexivity | exact Hs].
Qed.

Lemma exec_preserves {A} (c : M A) (m : Machine) (k : A -> Machine -> Machine) :
  preserves I c ->
  (forall a m', st (k a m') = st m') ->
  I (st m) -> I (st (exec c m k)).
Proof.
  intros Hc Hk Hm. specialize (Hc (st m) Hm). unfold exec.
  destruct (c (st m)) as [a s | p | s]; [rewrite Hk | |]; assumption.
Qed.

End Preservation.

(** Break a piece of code of the package into its parts. *)
Ltac keeps :=
  unfold c_Name, c_GetBrokerAddr, c_GetBrokerTopicName, Info, Warning, Error,
    Sleep, conn_IsConnected, conn_Connect, conn_Subscribe;
  repeat match goal with
         | |- preserves _ (mbind _ _) => apply preserves_bind; [|intros ?]
         | |- preserves _ (mret _) => apply preserves_ret
         | |- preserves _ (lift _) => apply preserves_lift
         | |- preserves _ config => apply preserves_config
         | |- preserves _ (emit _) => apply preserves_emit; assumption
         | |- preserves _ (on_conn _ _) => apply preserves_on_conn; assumption
         | |- preserves _ new_client => apply preserves_new_client; assumption
         | |- preserves _ (match ?x with _ => _ end) => destruct x
         end.

Section Kept.
Context `{T : Transport} `{P : Platform}.
#[local] Existing Instances M_ret M_bind.

Lemma Subscribe_attempt_preserves (I : State -> Prop) (topic : string) (i : Z) :
  stable I -> preserves I (Subscribe_attempt topic i).
Proof. intros HI. unfold Subscribe_attempt. keeps. Qed.

(** Every step keeps a stable property of the state. *)
Lemma step_preserves (I : State -> Prop) (a : action) (m : Machine) :
  stable I -> I (st m) -> I (st (step a m)).
Proof.
  intros HI Hm. unfold step. destruct (crashed m); [exact Hm|].
  destruct a.
  - unfold loop_step. destruct (loop m); try exact Hm.
    + apply exec_preserves; [keeps | reflexivity | exact Hm].
    + destruct (_ <=? _)%Z; [|exact Hm].
      apply exec_preserves;
        [apply Subscribe_attempt_preserves, HI | intros [|] ?; reflexivity | exact Hm].
    + destruct (connected m); exact Hm.
  - unfold caller_connected. destruct (caller m); try exact Hm.
    destruct (connected m); [|exact Hm].
    apply exec_preserves; [keeps | reflexivity | exact Hm].
  - unfold caller_error. destruct (caller m); try exact Hm.
    destruct (loop m); exact Hm.
  - unfold caller_timeout. destruct (caller m); try exact Hm.
    apply exec_preserves; [keeps | reflexivity | exact Hm].
  - unfold monitor_tick. destruct (monitors m !! g) as [[]|]; try exact Hm.
    apply exec_preserves; [keeps | intros [|] ?; reflexivity | exact Hm].
  - unfold monitor_done. destruct (monitors m !! g) as [[]|]; try exact Hm.
    apply exec_preserves; [keeps | reflexivity | exact Hm].
  - unfold reload. destruct (monitors m !! g) as [[]|]; try exact Hm.
    destruct (loop m); try exact Hm.
    destruct (Nat.eqb _ _); [|exact Hm].
    apply exec_preserves; [keeps | reflexivity | exact Hm].
Qed.

Lemma run_preserves (I : State -> Prop) (schedule : list action) :
  stable I -> forall m : Machine, I (st m) -> I (st (run schedule m)).
Proof.
  intros HI. induction schedule as [|a l IH]; intros m Hm; [exact Hm|].
  cbn. change (fold_left _ l (step a m)) with (run l (step a m)).
  apply IH, step_preserves; assumption.
Qed.

End Kept.

Section KeptByStart.
Context `{T : Transport} `{P : Platform}.
#[local] Existing Instances M_ret M_bind.

(** X18. The goroutines of [Start] never replace the configuration or
    the drain queue, and the client the connection holds is always the
    one made last: a new client takes the place of the old one as a
    whole. *)
Theorem Start_keeps_connection (s : State) (m0 : Machine)
    (schedule : list action) :
  Start_setup s = Ok m0 ->
  holds_last_client s ->
  Config (self (st (run schedule m0))) = Config (self s)
  /\ events (self (st (run schedule m0))) = events (self (st m0))
  /\ holds_last_client (st (run schedule m0)).
Proof.
  intros Hs Hlast.
  apply (run_preserves
           (fun s' => Config (self s') = Config (self s)
                      /\ events (self s') = events (self (st m0))
                      /\ holds_last_client s')).
  - split; [|split].
    + intros c s' Hs'. exact Hs'.
    + intros w s' Hs'. exact Hs'.
    + intros s1 s2 Hn (Hc & He & _). unfold new_client in Hn.
      injection Hn as <-. cbn. split; [exact Hc|]. split; [exact He|].
      intros h Hh. cbn in Hh |- *. injection Hh as <-. reflexivity.
  - unfold Start_setup in Hs.
    destruct (GetBrokerAddr _); [|discriminate Hs].
    destruct (GetBrokerClientID _); [|discriminate Hs].
    destruct (GetBrokerCredentials _); [|discriminate Hs].
    cbn in Hs. destruct (_ <? 0)%Z; [discriminate Hs|].
    injection Hs as <-. cbn. split; [reflexivity|]. split; [reflexivity|].
    exact Hlast.
Qed.

Lemma extends_stable (old : list call) : stable (extends old).
Proof.
  split; [|split].
  - intros c s [new Hn]. exists (new ++ [c])%list. cbn.
    rewrite Hn, app_assoc. reflexivity.
  - intros w s Hs. exact Hs.
  - intros s s' Hn [new Hs]. unfold new_client in Hn. injection Hn as <-.
    exists (new ++ [CNewClient (clients s)])%list. cbn.
    rewrite Hs, app_assoc. reflexivity.
Qed.

Lemma handshook_stable (old : list call) : stable (handshook_since old).
Proof.
  split; [|split].
  - intros c s (new & h & t & Hn & H1 & H2 & H3).
    exists (new ++ [c])%list, h, t. cbn. rewrite Hn, app_assoc.
    rewrite !in_app_iff. auto.
  - intros w s Hs. exact Hs.
  - intros s s' Hn (new & h & t & Hs & H1 & H2 & H3).
    unfold new_client in Hn. injection Hn as <-.
    exists (new ++ [CNewClient (clients s)])%list, h, t. cbn.
    rewrite Hs, app_assoc. rewrite !in_app_iff. auto.
Qed.

(** The loop gets to [c.Subscribe] only through a connect without error
    and a client that reports connected. *)
Lemma loop_top_handshake (old : list call) (s s' : State) (topic : string)
    (i : Z) (err : option error) :
  extends old s ->
  (name ← c_Name;
   addr ← c_GetBrokerAddr;
   Info "Starting MQTT (connection: %s) on (addr: %s)..."
        [AString name; AString addr];;
   new_client;;
   token ← conn_Connect;
   match MQTT.failed token with
   | Some e =>
       mret (LSendError (Errorf
         "Failed to establish connection with mqtt server (error: %s)"
         [AError e]))
   | None =>
       live ← conn_IsConnected;
       if negb live then mret LTop
       else
         topic ← c_GetBrokerTopicName;
         mret (LSubscribe topic 0 None)
   end) s = Done (LSubscribe topic i err) s' ->
  handshook_since old s'.
Proof.
  intros [new Hn]. unfold_monad. unfold new_client.
  destruct (Name (Config (self s))); cbn; [|discriminate].
  destruct (GetBrokerAddr (Config (self s))); cbn; [|discriminate].
  set (c := client_Connect (clients s) (world s)).
  destruct (MQTT.failed c.1) eqn:Hf; cbn; [discriminate|].
  set (l := client_IsConnected (clients s) c.2).
  destruct l.1 eqn:Hl; cbn; [|discriminate].
  destruct (GetBrokerTopicName _); cbn; [|discriminate].
  intros H. injection H as _ _ _ <-.
  eexists (new ++ [_; _; _; _])%list, (clients s), c.1. cbn.
  split; [rewrite Hn, <- !app_assoc; reflexivity|].
  rewrite !in_app_iff. cbn. auto 10.
Qed.

(** X19. [Start] returns nil only after a connect that ended without
    error and a client that then reported connected: whatever the
    transport and the schedule, when [Start] has returned nil the trace
    since the call shows both. *)
Theorem Start_nil_only_after_connect (s : State) (m0 : Machine)
    (schedule : list action) :
  Start_setup s = Ok m0 ->
  Start_result (run schedule m0) = Some None ->
  handshook_since (trace s) (st (run schedule m0)).
Proof.
  intros Hs Hres.
  destruct (Start_setup_initial s m0 Hs) as (Hcr & Hca & Hlo & Hco & Hmo & Hcfg).
  destruct (Start_setup_state s m0 Hs) as (_ & _ & _ & _ & Htr).
  set (old := trace s) in *.
  pose (K := fun m : Machine =>
    extends old (st m)
    /\ (handshook_since old (st m)
        \/ (connected m = false
            /\ (loop m = LTop \/ exists e, loop m = LSendError e)))).
  assert (HK : forall l m, K m -> K (run l m)).
  { clear. induction l as [|a l IH]; intros m Hm; [exact Hm|].
    cbn. change (fold_left _ l (step a m)) with (run l (step a m)).
    apply IH. destruct Hm as [Hext [Hh | (Hco & Hl)]].
    - split; [apply step_preserves; [apply extends_stable | exact Hext]|].
      left. apply step_preserves; [apply handshook_stable | exact Hh].
    - split; [apply step_preserves; [apply extends_stable | exact Hext]|].
      destruct (crashed m) eqn:Hcr; [unfold step; rewrite Hcr; auto|].
      destruct a;
        try solve
          [ right;
            match goal with
            | |- context [step ?a ?m'] =>
                destruct (step_moves a m') as [| | | | | | | | |]
            end; moved;
            try solve [split; [congruence | destruct Hl as [Hl | [e' Hl]]; eauto]];
            try discriminate; try congruence;
            destruct Hl as [Hl | [e' Hl]]; congruence ].
      unfold step. rewrite Hcr. unfold loop_step.
      destruct Hl as [Hl | [e Hl]]; rewrite Hl; [|right; cbn; eauto].
      unfold exec.
      match goal with |- context [match ?c (st m) with _ => _ end] =>
        destruct (c (st m)) as [pc s' | p | s'] eqn:Hc end;
        try solve [right; cbn; auto].
      pose proof (loop_top_moves _ _ _ Hc) as Hlm.
      inversion Hlm; subst; try solve [right; cbn; eauto].
      left. cbn. eapply loop_top_handshake; eassumption. }
  assert (K0 : K m0).
  { split; [exists []; rewrite app_nil_r; exact Htr|]. right. auto. }
  destruct (HK schedule m0 K0) as [_ [Hh | (Hco' & _)]]; [exact Hh|].
  assert (Hc : connected (run schedule m0) = true).
  { apply run_returned_nil.
    - rewrite Hca. discriminate.
    - unfold Start_result in Hres.
      destruct (caller (run schedule m0)); congruence. }
  congruence.
Qed.

End KeptByStart.

(** ** The further properties at work on the sample platform *)

Section FurtherInstances.
Import Sample.


Lemma Validate_connection_not_a_map_witness :
  Validate (running flat_connection refusing q0)
    = Panicked (TypeAssertion "connection").
Proof.
  apply (Validate_connection_not_a_map (running flat_connection refusing q0)
           "worker" (VString "tcp://10.0.0.1:1883"));
    [vm_compute; reflexivity | vm_compute; reflexivity | discriminate].
Defined.

Lemma Validate_only_logs_witness :
  exists s' name,
    Validate (running valid refusing q0) = Done None s'
    /\ Name valid = Ok name
    /\ s' = record (CLog LInfo "Validating mqtt configuration for (worker: %q)"
                      [AString name]) (running valid refusing q0).
Proof.
  assert (E : Validate (running valid refusing q0)
              = Done None
                  (record (CLog LInfo "Validating mqtt configuration for (worker: %q)"
                             [AString "worker"]) (running valid refusing q0)))
    by (vm_compute; reflexivity).
  destruct (Validate_only_logs _ _ _ E) as (name & H1 & H2).
  eexists. exists name. split; [exact E|]. split; [exact H1 | exact H2].
Defined.

Lemma Subscribe_only_subscribes_witness :
  exists r s' new,
    Subscribe 10 "sensors/1" 3
      (running valid (mkScript [] [] [refused; ok] []) q0) = Some (Done r s')
    /\ trace s' = ([] ++ new)%list
    /\ without_logs new = map (CSubscribe 0 "sensors/1" 0) (subscribe_tokens new).
Proof.
  eexists. eexists.
  assert (E : Subscribe_loop 10 "sensors/1" 3 0 None
                (running valid (mkScript [] [] [refused; ok] []) q0)
              = Some (Done _ _)) by (vm_compute; reflexivity).
  destruct (Subscribe_only_subscribes 10 "sensors/1" 3 0 0 None _
              (running valid (mkScript [] [] [refused; ok] []) q0) _ eq_refl E)
    as (_ & _ & new & H1 & H2).
  exists new. split; [exact E|]. split; [exact H1 | exact H2].
Defined.

Lemma nil_client_panics_witness :
  Stop (fresh valid refusing) = Panicked NilDereference
  /\ Subscribe 1 "sensors/1" 0 (fresh valid refusing)
     = Some (Panicked NilDereference).
Proof.
  destruct (nil_client_panics (fresh valid refusing) "worker") as [H1 H2];
    [reflexivity | vm_compute; reflexivity|].
  split; [exact H1 | apply (H2 0%nat "sensors/1" 0); lia].
Defined.

Lemma BrokerHandler_without_queue_parks_witness :
  exists s',
    BrokerHandler (P := Plain) "21.5" (fresh valid refusing) = Parked s'
    /\ self s' = self (fresh valid refusing)
    /\ world s' = world (fresh valid refusing)
    /\ without_logs (trace s')
       = (without_logs (trace (fresh valid refusing)) ++ [CNewEvent None])%list.
Proof.
  apply (BrokerHandler_without_queue_parks (P := Plain) "21.5"
           (fresh valid refusing) "worker");
    [vm_compute; reflexivity | reflexivity | reflexivity].
Defined.

Lemma BrokerHandler_keeps_queue_bounded_witness :
  exists s' q',
    reached (BrokerHandler (P := Plain) "21.5"
               (running valid refusing (mkChan ["20.0"; "20.5"] 2 ["21.0"])))
      = Some s'
    /\ DrainEvents (self s') = Some q'
    /\ chan_wf q'
    /\ cap q' = 2%nat
    /\ chan_pending q' = ["20.0"; "20.5"; "21.0"; "21.5"].
Proof.
  apply (BrokerHandler_keeps_queue_bounded (P := Plain) "21.5"
           (running valid refusing (mkChan ["20.0"; "20.5"] 2 ["21.0"]))
           "worker" (mkChan ["20.0"; "20.5"] 2 ["21.0"]));
    [vm_compute; reflexivity | reflexivity | | reflexivity].
  split; [cbn; lia | discriminate].
Defined.

Lemma BrokerHandler_then_receive_witness :
  exists s' q',
    reached (BrokerHandler (P := Plain) "21.5" (running valid refusing q0))
      = Some s'
    /\ DrainEvents (self s') = Some q'
    /\ chan_recv q' = Some ("21.5", mkChan [] 2 []).
Proof.
  apply (BrokerHandler_then_receive (P := Plain) "21.5"
           (running valid refusing q0) "worker" 2);
    [vm_compute; reflexivity | reflexivity | reflexivity].
Defined.

Lemma Start_error_is_connect_failure_witness :
  Start_result (run [ALoop; ACallerError] (started refused_first))
    = Some (Some (Errorf
        "Failed to establish connection with mqtt server (error: %s)"
        [AError (ExtError "connection refused")]))
  /\ connect_failure (Errorf
       "Failed to establish connection with mqtt server (error: %s)"
       [AError (ExtError "connection refused")]).
Proof.
  split; [vm_compute; reflexivity|].
  apply (Start_error_is_connect_failure (fresh valid refused_first)
           (started refused_first) [ALoop; ACallerError]);
    vm_compute; reflexivity.
Defined.


Lemma unread_error_parks_loop_witness :
  loop (run [ALoop; ACallerError; ALoop]
          (run (handshake ++ [AMonitorTick 0; AReload 0; ALoop; ALoop])
               (started fails_later)))
    = LSendError (Errorf
        "Failed to establish connection with mqtt server (error: %s)"
        [AError (ExtError "connection refused")]).
Proof.
  apply (unread_error_parks_loop
           (run (handshake ++ [AMonitorTick 0; AReload 0; ALoop; ALoop])
                (started fails_later)));
    [vm_compute; discriminate | vm_compute; reflexivity].
Defined.

Lemma stop_signal_ends_reconnection_witness :
  loop (run [AMonitorTick 0; AReload 0; ALoop]
          (step (AMonitorDone 0) (run handshake (started lost_once))))
    = LWaitReload 0.
Proof.
  apply (stop_signal_ends_reconnection (run handshake (started lost_once)) 0);
    vm_compute; reflexivity.
Defined.

Lemma first_connect_failure_is_final_witness :
  loop (step ALoop (started refused_first))
    = LSendError (Errorf
        "Failed to establish connection with mqtt server (error: %s)"
        [AError (ExtError "connection refused")])
  /\ (Start_result (run [ACallerError; ALoop; ALoop; ALoop; ACallerConnected]
                      (step ALoop (started refused_first))) = None
      \/ Start_result (run [ACallerError; ALoop; ALoop; ALoop; ACallerConnected]
                         (step ALoop (started refused_first)))
         = Some (Some (Errorf
             "Failed to establish connection with mqtt server (error: %s)"
             [AError (ExtError "connection refused")]))).
Proof.
  split; [vm_compute; reflexivity|].
  apply (first_connect_failure_is_final (step ALoop (started refused_first)));
    vm_compute; reflexivity.
Defined.

Lemma at_most_one_monitor_witness :
  length (monitors (run reconnect (started lost_once)))
    = if connected (run reconnect (started lost_once)) then 1%nat else 0%nat.
Proof.
  apply (at_most_one_monitor (fresh valid lost_once) (started lost_once) reconnect).
  vm_compute. reflexivity.
Defined.

Lemma live_transport_never_reloads_witness :
  loop (run [AMonitorTick 0; AReload 0; ALoop; AMonitorTick 0]
          (run handshake steady_started))
    = LWaitReload 0.
Proof.
  apply (live_transport_never_reloads (T := Steady)
           (run handshake steady_started) 0).
  - intros h w. reflexivity.
  - vm_compute. reflexivity.
  - vm_compute. repeat constructor. discriminate.
Defined.

Lemma first_handshake_succeeds_witness :
  Start_result (run handshake (started lost_once)) = Some None.
Proof.
  pose proof (first_handshake_succeeds (fresh valid lost_once)
                (started lost_once) "worker" "sensors/1") as H.
  cbv zeta in H.
  destruct H as [H _];
    [ vm_compute; reflexivity | vm_compute; reflexivity
    | vm_compute; reflexivity | vm_compute; discriminate
    | vm_compute; reflexivity | vm_compute; reflexivity
    | vm_compute; reflexivity | exact H ].
Defined.

Lemma Start_keeps_connection_witness :
  Config (self (st (run reconnect (started lost_once)))) = valid
  /\ events (self (st (run reconnect (started lost_once)))) = Some q0
  /\ holds_last_client (st (run reconnect (started lost_once))).
Proof.
  assert (Hlast : holds_last_client (fresh valid lost_once))
    by (intros h Hh; discriminate Hh).
  exact (Start_keeps_connection (fresh valid lost_once) (started lost_once)
           reconnect eq_refl Hlast).
Defined.

Lemma Start_nil_only_after_connect_witness :
  handshook_since [] (st (run handshake (started lost_once))).
Proof.
  apply (Start_nil_only_after_connect (fresh valid lost_once)
           (started lost_once) handshake);
    vm_compute; reflexivity.
Defined.

End FurtherInstances.

(** ** When Validate panics, and what the accessors return *)

Section Assertions.
Context `{T : Transport} `{P : Platform}.

(** X20. The checks of [Validate] panic in two cases only: the
    connection entry is there but is not a map; or every rule on the
    network, the address, the username and the password holds and
    [clientId] is not a string. In every other case they return, nil or
    an error. *)
Theorem Validate_checks_panics_iff (cfg : gmap string Value) (p : panic) :
  Validate_checks cfg = Panic p
  <-> (exists v, Get cfg "connection" = Some v
                 /\ (forall data, v <> VMap data)
                 /\ p = TypeAssertion "connection")
      \/ (exists data (network address username password : string),
            Get cfg "connection" = Some (VMap data)
            /\ data !! "network" = Some (VString network)
            /\ In network AvailableConnectionTypes
            /\ data !! "address" = Some (VString address)
            /\ 5 <= len address
            /\ (exists pre post : string, address = pre ++ ":" ++ post)
            /\ data !! "username" = Some (VString username)
            /\ data !! "password" = Some (VString password)
            /\ ~ has_string data "clientId"
            /\ p = TypeAssertion "clientId").
Proof.
  unfold Validate_checks, ok_string. split.
  - destruct (Get cfg "connection") as [v|] eqn:Hg; cbn; [|discriminate].
    destruct v as [| | |data]; cbn;
      try (intros H; injection H as <-; left; eexists; split; [reflexivity|];
           split; [discriminate | reflexivity]).
    destruct (as_string (data !! "network")) as [n|] eqn:En; cbn;
      [|discriminate].
    apply as_string_Some in En. rewrite En. cbn.
    destruct (StringInSlice n AvailableConnectionTypes) eqn:Hin; cbn;
      [|discriminate].
    destruct (as_string (data !! "address")) as [a|] eqn:Ea; cbn;
      [|discriminate].
    apply as_string_Some in Ea. rewrite Ea. cbn.
    destruct (len a <? 5)%Z eqn:Hlen; cbn; [discriminate|].
    destruct (Contains a ":") eqn:Hcol; cbn; [|discriminate].
    destruct (as_string (data !! "username")) as [u|] eqn:Eu; cbn;
      [|discriminate].
    destruct (as_string (data !! "password")) as [pw|] eqn:Ep; cbn;
      [|discriminate].
    destruct (as_string (data !! "clientId")) as [id|] eqn:Ei.
    + apply as_string_Some in Ei. rewrite Ei. cbn.
      destruct (len id <? 2)%Z; cbn; [discriminate|].
      destruct (as_string (data !! "topic")); cbn; discriminate.
    + intros H. right. exists data, n, a, u, pw.
      apply as_string_Some in Eu, Ep.
      apply StringInSlice_In in Hin. apply Contains_spec in Hcol.
      apply Z.ltb_ge in Hlen.
      assert (Hp : p = TypeAssertion "clientId").
      { unfold as_string in Ei.
        destruct (data !! "clientId") as [[| | |]|]; cbn in H;
          try discriminate Ei; congruence. }
      unfold has_string. rewrite Ei. auto 12.
  - intros [(v & Hg & Hv & ->) |
            (data & n & a & u & pw & Hg & En & Hin & Ea & Hlen & Hcol
             & Eu & Ep & Hid & ->)].
    + rewrite Hg. cbn. destruct v as [| | |data]; try reflexivity.
      exfalso. apply (Hv data). reflexivity.
    + rewrite Hg. cbn. rewrite En. cbn.
      apply StringInSlice_In in Hin. rewrite Hin. cbn. rewrite Ea. cbn.
      apply Contains_spec in Hcol. rewrite Hcol.
      apply Z.ltb_ge in Hlen. rewrite Hlen. cbn. rewrite Eu, Ep. cbn.
      unfold has_string, as_string in Hid.
      destruct (data !! "clientId") as [[| | |]|]; try reflexivity.
      exfalso. apply Hid. discriminate.
Qed.

(** X21. On a configuration with a string under [name] and, in its
    connection block, strings under [username], [password], [clientId]
    and [topic], the accessors return exactly those strings. *)
Theorem accessors_return_configured (cfg data : gmap string Value)
    (name username password clientId topic : string) :
  Get cfg "name" = Some (VString name) ->
  Get cfg "connection" = Some (VMap data) ->
  data !! "username" = Some (VString username) ->
  data !! "password" = Some (VString password) ->
  data !! "clientId" = Some (VString clientId) ->
  data !! "topic" = Some (VString topic) ->
  Name cfg = Ok name
  /\ GetBrokerCredentials cfg = Ok (username, password)
  /\ GetBrokerClientID cfg = Ok clientId
  /\ GetBrokerTopicName cfg = Ok topic.
Proof.
  intros Hn Hc Hu Hp Hi Ht.
  unfold Name, GetBrokerCredentials, GetBrokerClientID, GetBrokerTopicName.
  rewrite Hn, Hc. cbn. rewrite Hu, Hi, Ht. cbn. rewrite Hp. auto.
Qed.

End Assertions.

Lemma accessors_return_configured_witness :
  Name Sample.valid = Ok "worker"
  /\ GetBrokerCredentials Sample.valid = Ok ("", "")
  /\ GetBrokerClientID Sample.valid = Ok "cl1"
  /\ GetBrokerTopicName Sample.valid = Ok "sensors/1".
Proof.
  apply (accessors_return_configured Sample.valid Sample.connection);
    vm_compute; reflexivity.
Defined.

Lemma Validate_checks_accepts_iff_witness :
  exists data,
    Get Sample.valid "connection" = Some (VMap data)
    /\ valid_connection (P := Sample.Plain) data.
Proof.
  apply (proj1 (Validate_checks_accepts_iff (P := Sample.Plain) Sample.valid)).
  vm_compute. reflexivity.
Defined.

Lemma Validate_checks_panics_iff_witness :
  Validate_checks (P := Sample.Plain) Sample.numeric_clientId
    = Panic (TypeAssertion "clientId").
Proof.
  apply (proj2 (Validate_checks_panics_iff (P := Sample.Plain)
                  Sample.numeric_clientId (TypeAssertion "clientId"))).
  right.
  exists (<["clientId" := VInt 42]> Sample.connection),
    "tcp", "10.0.0.1:1883", "", "".
  split; [vm_compute; reflexivity|]. split; [vm_compute; reflexivity|].
  split; [cbn; auto|]. split; [vm_compute; reflexivity|].
  split; [vm_compute; discriminate|].
  split; [exists "10.0.0.1", "1883"; reflexivity|].
  split; [vm_compute; reflexivity|]. split; [vm_compute; reflexivity|].
  split; [unfold has_string; vm_compute; congruence | reflexivity].
Defined.
